(** * Granite: the browser client of the video pipeline, and the pipeline
      contract it polls

    The development embeds the client script of the Granite front end
    (create page, process page, output page) as Rocq functions and states
    the properties of its polling loop, its submission handler and its
    terminal log.  The server side of the pipeline (job store, orchestrator,
    submission endpoint) is described by the design document only; the
    modules [Pipeline] and [Server] follow that document. *)

From Stdlib Require Import ZArith Lia Ascii String.
From stdpp Require Import gmap strings list pretty.

Set Warnings "-register-all".
Open Scope string_scope.
Open Scope list_scope.

(** ** JavaScript values as the script sees them *)

(** A JavaScript string is carried as the UTF-8 encoding of its text, the
    encoding of the string literals of this file: equality, emptiness,
    concatenation, and prefixes and suffixes at character boundaries are
    those of the text. *)

Module JS.

(** A value produced by [res.json()] or by a property read on such a value.
    A number is carried as its canonical [Number::toString] rendering: the
    script only compares numbers with [===], tests their truthiness and
    splices them into template literals, and two JSON numbers are [===]
    exactly when they print alike.  An object carries its own properties,
    each key once, as they stand after parsing. *)
Inductive value : Type :=
| Undefined
| Null
| Bool (b : bool)
| Num (repr : string)
| Str (s : string)
| Arr (items : list value)
| Obj (fields : list (string * value)).

(** ToBoolean. *)
Definition truthy (v : value) : bool :=
  match v with
  | Undefined | Null => false
  | Bool b => b
  | Num r => negb (String.eqb r "0")
  | Str s => negb (String.eqb s "")
  | Arr _ | Obj _ => true
  end.

(** [a === b].  Arrays and objects are compared by reference; every two
    objects the script compares stem from two different [res.json()] calls,
    hence are never the same reference. *)
Definition strict_eq (a b : value) : bool :=
  match a, b with
  | Undefined, Undefined => true
  | Null, Null => true
  | Bool x, Bool y => Bool.eqb x y
  | Num x, Num y => String.eqb x y
  | Str x, Str y => String.eqb x y
  | _, _ => false
  end.

(** [a || b]. *)
Definition or (a b : value) : value := if truthy a then a else b.

Fixpoint has_key (k : string) (fields : list (string * value)) : bool :=
  match fields with
  | [] => false
  | (k', _) :: rest => String.eqb k k' || has_key k rest
  end.

(** ToString(v) throws a TypeError.  It does so for an object that has an
    own [toString] property: a parsed value is never callable, so neither
    that property nor [valueOf] yields a primitive; and for an array one of
    whose elements, other than [null], cannot be converted.  Every
    conversion the script makes is preceded by this test. *)
Fixpoint throws (v : value) : bool :=
  match v with
  | Arr items =>
      (fix any (l : list value) : bool :=
         match l with
         | [] => false
         | x :: rest => throws x || any rest
         end) items
  | Obj fields => has_key "toString" fields
  | _ => false
  end.

(** The message of that TypeError (V8 wording). *)
Definition conversion_message : string :=
  "Cannot convert object to primitive value".

(** ToString, as applied by template literals, by [+] on strings, by
    [setItem] and by [new Error]: the string it yields when it does not
    throw. *)
Fixpoint to_string (v : value) : string :=
  match v with
  | Undefined => "undefined"
  | Null => "null"
  | Bool true => "true"
  | Bool false => "false"
  | Num r => r
  | Str s => s
  | Arr items =>
      (fix join (l : list value) : string :=
         match l with
         | [] => ""
         | x :: rest =>
             let sx := match x with
                       | Undefined | Null => ""
                       | _ => to_string x
                       end in
             match rest with
             | [] => sx
             | _ :: _ => sx +:+ "," +:+ join rest
             end
         end) items
  | Obj _ => "[object Object]"
  end.

(** The string a DOM text attribute ([textContent]) holds after [v] is
    assigned to it: [null] and [undefined] give the empty string. *)
Definition to_text (v : value) : string :=
  match v with
  | Undefined | Null => ""
  | _ => to_string v
  end.

Fixpoint assoc (k : string) (fields : list (string * value)) : value :=
  match fields with
  | [] => Undefined
  | (k', v) :: rest => if String.eqb k k' then v else assoc k rest
  end.

(** [v.k] for the property names the script reads ([status],
    [current_step], [progress], [message], [error], [job_id], [detail]):
    none of them exists on a primitive or on an array, and reading any
    property of [null] or [undefined] throws a TypeError ([None]). *)
Definition get (v : value) (k : string) : option value :=
  match v with
  | Undefined | Null => None
  | Obj fields => Some (assoc k fields)
  | _ => Some Undefined
  end.

(** The message of the TypeError thrown by [null.k] (V8 wording). *)
Definition null_access_message (k : string) : string :=
  "Cannot read properties of null (reading '" +:+ k +:+ "')".

(** [arr.indexOf(v)] on an array of strings: [None] stands for -1. *)
Fixpoint indexOf (arr : list string) (v : value) : option nat :=
  match arr with
  | [] => None
  | x :: rest =>
      if strict_eq (Str x) v then Some 0
      else match indexOf rest v with
           | Some i => Some (S i)
           | None => None
           end
  end.

Fixpoint repeat_string (n : nat) (s : string) : string :=
  match n with
  | 0 => ""
  | S n' => s +:+ repeat_string n' s
  end.

(** [s.padStart(n, pad)] for a one-character [pad]. *)
Definition padStart (n : nat) (pad : string) (s : string) : string :=
  repeat_string (n - String.length s) pad +:+ s.

(** The UTF-8 encoding of a code point. *)
Definition utf8 (cp : N) : string :=
  let byte (n : N) : ascii := ascii_of_N n in
  if (cp <? 128)%N then String (byte cp) EmptyString
  else if (cp <? 2048)%N then
    String (byte (192 + cp / 64)%N)
      (String (byte (128 + cp mod 64)%N) EmptyString)
  else if (cp <? 65536)%N then
    String (byte (224 + cp / 4096)%N)
      (String (byte (128 + (cp / 64) mod 64)%N)
         (String (byte (128 + cp mod 64)%N) EmptyString))
  else
    String (byte (240 + cp / 262144)%N)
      (String (byte (128 + (cp / 4096) mod 64)%N)
         (String (byte (128 + (cp / 64) mod 64)%N)
            (String (byte (128 + cp mod 64)%N) EmptyString))).

(** The code points [String.prototype.trim] removes: the WhiteSpace and
    LineTerminator productions of the language (TAB, LF, VT, FF, CR, SP,
    NBSP, U+1680, U+2000 to U+200A, LS, PS, U+202F, U+205F, U+3000 and
    the byte order mark). *)
Definition white_space : list N :=
  [9; 10; 11; 12; 13; 32; 160; 5760;
   8192; 8193; 8194; 8195; 8196; 8197; 8198; 8199; 8200; 8201; 8202;
   8232; 8233; 8239; 8287; 12288; 65279]%N.

(** [s] without the prefix [w], when it has that prefix. *)
Fixpoint drop_prefix (w s : string) : option string :=
  match w with
  | EmptyString => Some s
  | String a w' =>
      match s with
      | EmptyString => None
      | String b s' => if Ascii.eqb a b then drop_prefix w' s' else None
      end
  end.

Fixpoint drop_any (ws : list string) (s : string) : option string :=
  match ws with
  | [] => None
  | w :: rest =>
      match drop_prefix w s with
      | Some r => Some r
      | None => drop_any rest s
      end
  end.

(** [s] without its leading run of the words [ws]; [fuel] bounds the
    number of words removed. *)
Fixpoint strip (ws : list string) (fuel : nat) (s : string) : string :=
  match fuel with
  | 0 => s
  | S n =>
      match drop_any ws s with
      | Some r => strip ws n r
      | None => s
      end
  end.

Definition string_rev (s : string) : string :=
  string_of_list_ascii (rev (list_ascii_of_string s)).

Definition trim_start (s : string) : string :=
  strip (utf8 <$> white_space) (String.length s) s.

(** In UTF-8 a string ends with a character exactly when it ends with the
    bytes of that character, so the trailing white space is the leading
    run of reversed encodings of the reversed string. *)
Definition trim_end (s : string) : string :=
  string_rev
    (strip ((fun cp => string_rev (utf8 cp)) <$> white_space)
       (String.length s) (string_rev s)).

(** [s.trim()]. *)
Definition trim (s : string) : string := trim_end (trim_start s).

(** The double quote, for markup and messages that contain it. *)
Definition dq : string := String "034"%char EmptyString.

End JS.

(** ** What a [fetch] can come back with *)

Module Net.

(** The outcome of [res.json()]: a rejection with the parser's message, or
    the parsed value. *)
Inductive body : Type :=
| BadJson (message : string)
| Json (v : JS.value).

(** The outcome of [await fetch(...)]: a rejection (transport error), or a
    response with its HTTP status. *)
Inductive result : Type :=
| NetworkError (message : string)
| Response (status : Z) (payload : body).

(** [res.ok]: the status is in the range 200-299. *)
Definition ok (status : Z) : bool := (200 <=? status)%Z && (status <=? 299)%Z.

(** [API_BASE]: pages opened from [file://] target the local server. *)
Definition API_BASE (protocol : string) : string :=
  if String.eqb protocol "file:" then "http://localhost:8000" else "".

End Net.

(** ** The create page: the Generate button *)

Module Create.

Record file : Type := { name : string; size : N }.

Inductive form_value : Type :=
| FormFile (f : file)
| FormText (s : string).

(** A [fetch] call with a [FormData] body: the fields in append order. *)
Record request : Type :=
  { url : string; method : string; form : list (string * form_value) }.

(** What the handler does to the world, in program order. *)
Inductive effect : Type :=
| Alert (msg : string)
| SetDisabled (b : bool)
| SetInnerHTML (html : string)
| Fetch (req : request)
| SetItem (key val : string)
| Navigate (target : string).

(** What the handler reads from the page: the value of [#topic-description]
    ([None] when the element or its value is missing) and the file list of
    [#file-upload] ([None] when the input is missing). *)
Record inputs : Type :=
  { topic_value : option string; files : option (list file) }.

(** [document.getElementById("topic-description")?.value?.trim() || ""]. *)
Definition description (i : inputs) : string :=
  match topic_value i with
  | Some v => JS.trim v
  | None => ""
  end.

(** [fileInput?.files?.[0] || null]. *)
Definition chosen_file (i : inputs) : option file :=
  match files i with
  | Some (f :: _) => Some f
  | _ => None
  end.

Definition nl : string := String "010"%char EmptyString.

Definition loading_html : string :=
  nl +:+ "          <div class=" +:+ JS.dq +:+ "loader" +:+ JS.dq
     +:+ " style=" +:+ JS.dq
     +:+ "width:24px;height:24px;border-width:3px;" +:+ JS.dq
     +:+ "></div>" +:+ nl
     +:+ "          <span>Starting Pipeline...</span>" +:+ nl
     +:+ "        ".

Definition ready_html : string :=
  nl +:+ "            Generate Video" +:+ nl
     +:+ "            <span class=" +:+ JS.dq
     +:+ "material-icons text-4xl" +:+ JS.dq +:+ ">bolt</span>" +:+ nl
     +:+ "          ".

(** The [FormData] of the request: a field per input that is present. *)
Definition formData (f : option file) (d : string)
  : list (string * form_value) :=
  (match f with
   | Some x => [("file", FormFile x)]
   | None => []
   end)
  ++ (if String.eqb d "" then [] else [("description", FormText d)]).

Definition generate_request (protocol : string) (f : option file)
    (d : string) : request :=
  {| url := Net.API_BASE protocol +:+ "/api/generate";
     method := "POST";
     form := formData f d |}.

(** The constants the handler closes over across its [await]. *)
Record pending : Type :=
  { p_description : string; p_file : option file }.

(** The click handler up to its [await fetch(...)]. *)
Definition click_start (protocol : string) (i : inputs)
  : list effect * option pending :=
  let d := description i in
  let f := chosen_file i in
  match f, String.eqb d "" with
  | None, true =>
      ([Alert "Please upload a PDF document or enter a topic description."],
       None)
  | _, _ =>
      ([SetDisabled true; SetInnerHTML loading_html;
        Fetch (generate_request protocol f d)],
       Some {| p_description := d; p_file := f |})
  end.

(** The [catch] block. *)
Definition on_error (message : string) : list effect :=
  [Alert ("Error: " +:+ message); SetDisabled false; SetInnerHTML ready_html].

(** [description || file?.name || "Generated Video"]. *)
Definition project_topic (p : pending) : string :=
  if String.eqb (p_description p) "" then
    match p_file p with
    | Some f => if String.eqb (name f) "" then "Generated Video" else name f
    | None => "Generated Video"
    end
  else p_description p.

(** The click handler from the point where [fetch] settles.  The first
    [setItem] converts the job id to a string and [new Error] converts its
    argument: either conversion can throw, into the [catch] block. *)
Definition click_finish (p : pending) (r : Net.result) : list effect :=
  match r with
  | Net.NetworkError m => on_error m
  | Net.Response status payload =>
      if Net.ok status then
        match payload with
        | Net.BadJson m => on_error m
        | Net.Json data =>
            match JS.get data "job_id" with
            | None => on_error (JS.null_access_message "job_id")
            | Some jobId =>
                if JS.throws jobId then on_error JS.conversion_message
                else
                  [SetItem "graniteJobId" (JS.to_string jobId);
                   SetItem "currentProjectTopic" (project_topic p)]
                  ++ (match p_file p with
                      | Some f => [SetItem "graniteFileName" (name f)]
                      | None => []
                      end)
                  ++ [Navigate "process.html"]
            end
        end
      else
        match payload with
        | Net.BadJson m => on_error m
        | Net.Json err =>
            match JS.get err "detail" with
            | None => on_error (JS.null_access_message "detail")
            | Some detail =>
                let reason :=
                  JS.or detail (JS.Str "Failed to start pipeline") in
                if JS.throws reason then on_error JS.conversion_message
                else on_error (JS.to_string reason)
            end
        end
  end.

(** One click, the server answering [respond req] to the request. *)
Definition click (protocol : string) (i : inputs)
    (respond : request -> Net.result) : list effect :=
  match click_start protocol i with
  | (effs, Some p) =>
      effs ++ click_finish p (respond (generate_request protocol
                                         (p_file p) (p_description p)))
  | (effs, None) => effs
  end.

(** The part of the browser the handler writes. *)
Record state : Type :=
  { btn_disabled : bool;
    btn_html : string;
    storage : gmap string string;
    href : string;
    alerts : list string;
    sent : list request }.

Definition apply (s : state) (e : effect) : state :=
  match e with
  | Alert m =>
      {| btn_disabled := btn_disabled s; btn_html := btn_html s;
         storage := storage s; href := href s;
         alerts := alerts s ++ [m]; sent := sent s |}
  | SetDisabled b =>
      {| btn_disabled := b; btn_html := btn_html s;
         storage := storage s; href := href s;
         alerts := alerts s; sent := sent s |}
  | SetInnerHTML h =>
      {| btn_disabled := btn_disabled s; btn_html := h;
         storage := storage s; href := href s;
         alerts := alerts s; sent := sent s |}
  | Fetch r =>
      {| btn_disabled := btn_disabled s; btn_html := btn_html s;
         storage := storage s; href := href s;
         alerts := alerts s; sent := sent s ++ [r] |}
  | SetItem k v =>
      {| btn_disabled := btn_disabled s; btn_html := btn_html s;
         storage := <[k := v]> (storage s); href := href s;
         alerts := alerts s; sent := sent s |}
  | Navigate t =>
      {| btn_disabled := btn_disabled s; btn_html := btn_html s;
         storage := storage s; href := t;
         alerts := alerts s; sent := sent s |}
  end.

Definition run (effs : list effect) (s : state) : state :=
  foldl apply s effs.

Definition is_fetch (e : effect) : bool :=
  match e with
  | Fetch _ => true
  | _ => false
  end.

(** The submission attempt succeeded, that is, the [try] block ran to its
    end: a 2xx response whose body parses to something other than [null]
    and whose [job_id] can be stored. *)
Definition succeeded (r : Net.result) : bool :=
  match r with
  | Net.Response status (Net.Json data) =>
      Net.ok status
      && match JS.get data "job_id" with
         | Some jobId => negb (JS.throws jobId)
         | None => false
         end
  | _ => false
  end.

End Create.

(** ** The process page: stage display, terminal log and polling *)

Module Process.

Definition stepIds : list string :=
  ["step-extraction"; "step-planning"; "step-animation";
   "step-narration"; "step-composition"; "step-quality"].

Definition stepNames : list string :=
  ["extraction"; "planning"; "animation";
   "narration"; "composition"; "quality"].

Definition stepLabels : list string :=
  ["Extracting content from document";
   "Planning lesson structure";
   "Generating Manim animation";
   "Creating narration audio";
   "Composing final video";
   "Quality checking output"].

(** [stepLabels[idx]] spliced into a string. *)
Definition label (idx : nat) : string :=
  default "undefined" (stepLabels !! idx).

(** A line of the terminal log.  The time stamp that [addTerminalLine]
    prints in front of it is the wall clock and is left out. *)
Record line : Type :=
  { tag : string; message : string; isSuccess : bool }.

Record badge : Type := { badge_class : string; badge_content : string }.

(** A step row with the sub-elements the script looks up in it, each
    absent when its selector matches nothing: the badge, the class of the
    title, the class and text of the description.  The script runs its
    selectors again at each call and overwrites the class of what it
    finds, so a badge or description that was found by its class is not
    found by the next call: a [step_el] is what the selectors match at one
    call, its [classes], [style_opacity] and [style_filter] alone belong
    to the row itself, which is found by id. *)
Record step_el : Type :=
  { classes : list string;
    style_opacity : string;
    style_filter : string;
    step_badge : option badge;
    title_class : option string;
    desc : option (string * string) }.

Inductive callback : Type :=
| PollStatus
| GotoOutput.

(** The page: the elements found by id (absent ones are [None], step rows
    are keyed by their id), the two variables of the closure, and the
    browser state around them. *)
Record state : Type :=
  { top_bar : option string;
    frame_bar : option string;
    progress_label : option string;
    stage_badge : option badge;
    status_label : option string;
    terminal : option (list line);
    steps : gmap string step_el;
    lastStep : JS.value;
    pollCount : nat;
    console : list string;
    timers : list (Z * callback);
    storage : gmap string string;
    href : string }.

Definition set_terminal (t : option (list line)) (s : state) : state :=
  {| top_bar := top_bar s; frame_bar := frame_bar s;
     progress_label := progress_label s; stage_badge := stage_badge s;
     status_label := status_label s; terminal := t; steps := steps s;
     lastStep := lastStep s; pollCount := pollCount s;
     console := console s; timers := timers s; storage := storage s;
     href := href s |}.

Definition set_steps (m : gmap string step_el) (s : state) : state :=
  {| top_bar := top_bar s; frame_bar := frame_bar s;
     progress_label := progress_label s; stage_badge := stage_badge s;
     status_label := status_label s; terminal := terminal s; steps := m;
     lastStep := lastStep s; pollCount := pollCount s;
     console := console s; timers := timers s; storage := storage s;
     href := href s |}.

Definition set_lastStep (v : JS.value) (s : state) : state :=
  {| top_bar := top_bar s; frame_bar := frame_bar s;
     progress_label := progress_label s; stage_badge := stage_badge s;
     status_label := status_label s; terminal := terminal s;
     steps := steps s; lastStep := v; pollCount := pollCount s;
     console := console s; timers := timers s; storage := storage s;
     href := href s |}.

(** The three progress elements: each field is the text last assigned to
    the element ([style.width] for the two bars, [textContent] for the
    label), not the width the style sheet ends up with, which keeps its
    old value when the text is not a CSS length. *)
Definition set_progress (w : string) (s : state) : state :=
  {| top_bar := (fun _ => w) <$> top_bar s;
     frame_bar := (fun _ => w) <$> frame_bar s;
     progress_label := (fun _ => w) <$> progress_label s;
     stage_badge := stage_badge s;
     status_label := status_label s; terminal := terminal s;
     steps := steps s; lastStep := lastStep s; pollCount := pollCount s;
     console := console s; timers := timers s; storage := storage s;
     href := href s |}.

Definition set_stage_badge (f : badge -> badge) (s : state) : state :=
  {| top_bar := top_bar s; frame_bar := frame_bar s;
     progress_label := progress_label s;
     stage_badge := f <$> stage_badge s;
     status_label := status_label s; terminal := terminal s;
     steps := steps s; lastStep := lastStep s; pollCount := pollCount s;
     console := console s; timers := timers s; storage := storage s;
     href := href s |}.

Definition set_status_label (t : string) (s : state) : state :=
  {| top_bar := top_bar s; frame_bar := frame_bar s;
     progress_label := progress_label s; stage_badge := stage_badge s;
     status_label := (fun _ => t) <$> status_label s;
     terminal := terminal s;
     steps := steps s; lastStep := lastStep s; pollCount := pollCount s;
     console := console s; timers := timers s; storage := storage s;
     href := href s |}.

Definition incr_pollCount (s : state) : state :=
  {| top_bar := top_bar s; frame_bar := frame_bar s;
     progress_label := progress_label s; stage_badge := stage_badge s;
     status_label := status_label s; terminal := terminal s;
     steps := steps s; lastStep := lastStep s; pollCount := S (pollCount s);
     console := console s; timers := timers s; storage := storage s;
     href := href s |}.

Definition log_error (m : string) (s : state) : state :=
  {| top_bar := top_bar s; frame_bar := frame_bar s;
     progress_label := progress_label s; stage_badge := stage_badge s;
     status_label := status_label s; terminal := terminal s;
     steps := steps s; lastStep := lastStep s; pollCount := pollCount s;
     console := console s ++ [m]; timers := timers s; storage := storage s;
     href := href s |}.

(** [setTimeout(cb, delay)]. *)
Definition setTimeout (cb : callback) (delay : Z) (s : state) : state :=
  {| top_bar := top_bar s; frame_bar := frame_bar s;
     progress_label := progress_label s; stage_badge := stage_badge s;
     status_label := status_label s; terminal := terminal s;
     steps := steps s; lastStep := lastStep s; pollCount := pollCount s;
     console := console s; timers := timers s ++ [(delay, cb)];
     storage := storage s; href := href s |}.

Definition set_href (h : string) (s : state) : state :=
  {| top_bar := top_bar s; frame_bar := frame_bar s;
     progress_label := progress_label s; stage_badge := stage_badge s;
     status_label := status_label s; terminal := terminal s;
     steps := steps s; lastStep := lastStep s; pollCount := pollCount s;
     console := console s; timers := timers s; storage := storage s;
     href := h |}.

Definition set_timers (t : list (Z * callback)) (s : state) : state :=
  {| top_bar := top_bar s; frame_bar := frame_bar s;
     progress_label := progress_label s; stage_badge := stage_badge s;
     status_label := status_label s; terminal := terminal s;
     steps := steps s; lastStep := lastStep s; pollCount := pollCount s;
     console := console s; timers := t; storage := storage s;
     href := href s |}.

(** [addTerminalLine(tag, message, isSuccess = false)]: nothing happens
    when the log or its line container is missing.  The script splices
    [tag] and [message] into the markup it assigns to the [innerHTML] of
    the new line; the log keeps them as spliced, before the browser parses
    them.  A message with a [<] in it can therefore make elements of its
    own, ones with an [id] included: [inert] below says that a line makes
    none. *)
Definition addTerminalLine (tg msg : string) (success : bool) (s : state)
  : state :=
  set_terminal
    ((fun l : list line =>
        (l ++ [{| tag := tg; message := msg; isSuccess := success |}])%list)
       <$> terminal s) s.

Definition success_badge_class : string :=
  "px-3 py-1 bg-primary-neon/10 text-primary-neon text-[9px] font-bold uppercase tracking-widest rounded-pill border border-primary-neon/20".

Definition active_badge_class : string :=
  "inline-flex items-center gap-2 px-3 py-1 bg-white text-black text-[9px] font-black uppercase tracking-widest rounded-pill".

Definition active_badge_html : string :=
  "<span class=" +:+ JS.dq
  +:+ "w-1.5 h-1.5 bg-black rounded-full animate-ping" +:+ JS.dq
  +:+ "></span> Processing".

Definition failed_badge_class : string :=
  "px-3 py-1 bg-red-500/10 text-red-400 text-[10px] font-bold uppercase tracking-widest rounded-pill border border-red-500/20".

(** [el.classList.remove("opacity-50", "grayscale")] and the two style
    assignments that follow it. *)
Definition undim (el : step_el) : step_el :=
  {| classes :=
       List.filter
         (fun c => negb (String.eqb c "opacity-50" || String.eqb c "grayscale"))
         (classes el);
     style_opacity := "1";
     style_filter := "none";
     step_badge := step_badge el;
     title_class := title_class el;
     desc := desc el |}.

Definition set_step_badge (b : badge) (el : step_el) : step_el :=
  {| classes := classes el; style_opacity := style_opacity el;
     style_filter := style_filter el;
     step_badge := (fun _ => b) <$> step_badge el;
     title_class := title_class el; desc := desc el |}.

Definition set_title_desc (t : string) (d : string * string) (el : step_el)
  : step_el :=
  {| classes := classes el; style_opacity := style_opacity el;
     style_filter := style_filter el;
     step_badge := step_badge el;
     title_class := (fun _ => t) <$> title_class el;
     desc := (fun _ => d) <$> desc el |}.

(** The branch [idx < currentIdx] of [updatePipelineStep]. *)
Definition completed_el (idx : nat) (el : step_el) : step_el :=
  set_title_desc "text-sm font-bold tracking-wider text-white uppercase"
    ("text-[10px] text-zinc-500 font-mono", label idx +:+ " — done ✓")
    (set_step_badge
       {| badge_class := success_badge_class; badge_content := "Success" |}
       (undim el)).

(** The branch [idx === currentIdx] of [updatePipelineStep]. *)
Definition active_el (idx : nat) (el : step_el) : step_el :=
  set_title_desc "text-lg font-bold tracking-tight text-white uppercase italic"
    ("text-xs text-primary-neon font-mono animate-pulse", label idx +:+ "...")
    (set_step_badge
       {| badge_class := active_badge_class;
          badge_content := active_badge_html |}
       (undim el)).

(** One turn of [stepIds.forEach((id, idx) => ...)] inside
    [updatePipelineStep]. *)
Definition update_step (currentIdx : nat) (m : gmap string step_el)
    (entry : nat * string) : gmap string step_el :=
  let (idx, id) := entry in
  match m !! id with
  | None => m
  | Some el =>
      if Nat.ltb idx currentIdx then <[id := completed_el idx el]> m
      else if Nat.eqb idx currentIdx then <[id := active_el idx el]> m
      else m
  end.

Definition updatePipelineStep (currentStep : JS.value) (s : state) : state :=
  match JS.indexOf stepNames currentStep with
  | None => s
  | Some currentIdx =>
      set_steps
        (foldl (update_step currentIdx) (steps s)
               (imap (fun idx id => (idx, id)) stepIds))
        s
  end.

(** [data.k] once [data] is known not to be [null]. *)
Definition prop (data : JS.value) (k : string) : JS.value :=
  default JS.Undefined (JS.get data k).

(** The property of [data] the handler reads first: it depends on which
    elements the page has. *)
Definition first_read (s : state) : string :=
  if bool_decide (is_Some (top_bar s)) || bool_decide (is_Some (frame_bar s))
     || bool_decide (is_Some (progress_label s)) then "progress"
  else if bool_decide (is_Some (stage_badge s)) then "current_step"
  else if bool_decide (is_Some (status_label s)) then "message"
  else "current_step".

(** The text written into [#stage-badge]. *)
Definition stage_text (current_step : JS.value) : string :=
  match JS.indexOf stepNames current_step with
  | Some stepIdx => "Stage " +:+ JS.padStart 2 "0" (pretty (S stepIdx))
  | None => JS.to_text current_step
  end.

(** Writing [current_step] into [#stage-badge] throws: the step is not one
    of [stepNames], so the value itself is assigned to [textContent], and
    its conversion to a string throws. *)
Definition stage_throws (current_step : JS.value) : bool :=
  match JS.indexOf stepNames current_step with
  | Some _ => false
  | None => JS.throws current_step
  end.

(** The page has one of the three progress elements, so the template
    literal [`${data.progress}%`] is evaluated. *)
Definition shows_progress (s : state) : bool :=
  bool_decide (is_Some (top_bar s)) || bool_decide (is_Some (frame_bar s))
  || bool_decide (is_Some (progress_label s)).

(** Progress bars, stage badge and status label, in program order.  Each
    of the three writes converts a field of [data] to a string, and only
    when its element exists; a conversion that throws leaves the [try]
    block with the writes made before it kept. *)
Definition render (data : JS.value) (s : state) : state + state * string :=
  let progress := prop data "progress" in
  let cur := prop data "current_step" in
  let msg := JS.or (prop data "message") (JS.Str "Processing...") in
  if shows_progress s && JS.throws progress
  then inr (s, JS.conversion_message)
  else
    let s1 := set_progress (JS.to_string progress +:+ "%") s in
    if bool_decide (is_Some (stage_badge s1)) && stage_throws cur
    then inr (s1, JS.conversion_message)
    else
      let s2 :=
        set_stage_badge
          (fun b => {| badge_class := badge_class b;
                       badge_content := stage_text cur |})
          s1 in
      if bool_decide (is_Some (status_label s2)) && JS.throws msg
      then inr (s2, JS.conversion_message)
      else inl (set_status_label (JS.to_text msg) s2).

(** The block guarded by
    [data.current_step !== lastStep && data.current_step !== "queued"]. *)
Definition visualize (current_step : JS.value) (s : state) : state :=
  if negb (JS.strict_eq current_step (lastStep s))
     && negb (JS.strict_eq current_step (JS.Str "queued"))
  then
    let s1 := updatePipelineStep current_step s in
    let s2 :=
      match JS.indexOf stepNames current_step with
      | Some stepIdx => addTerminalLine "Pipeline" (label stepIdx +:+ "...") false s1
      | None => s1
      end in
    let s3 :=
      if JS.truthy (lastStep s)
         && negb (JS.strict_eq (lastStep s) (JS.Str "queued"))
      then
        match JS.indexOf stepNames (lastStep s) with
        | Some prevIdx =>
            addTerminalLine "Success" (label prevIdx +:+ " — completed") true s2
        | None => s2
        end
      else s2 in
    set_lastStep current_step s3
  else s.

(** One turn of the [stepIds.forEach] of the completed branch. *)
Definition mark_complete (m : gmap string step_el) (id : string)
  : gmap string step_el :=
  match m !! id with
  | None => m
  | Some el =>
      <[id := set_step_badge
                {| badge_class := success_badge_class;
                   badge_content := "Success" |}
                (undim el)]> m
  end.

(** The branch [data.status === "completed"]. *)
Definition on_completed (s : state) : state :=
  let s1 := addTerminalLine "Success" "Pipeline completed successfully! ✅"
              true s in
  let s2 := set_steps (foldl mark_complete (steps s1) stepIds) s1 in
  setTimeout GotoOutput 2000 s2.

(** The branch [data.status === "failed"].  The template literal
    [`Pipeline failed: ${data.error || data.message}`] is evaluated before
    [addTerminalLine] is called: when the conversion throws, nothing of the
    branch has happened. *)
Definition on_failed (data : JS.value) (s : state) : state + state * string :=
  let reason := JS.or (prop data "error") (prop data "message") in
  if JS.throws reason then inr (s, JS.conversion_message)
  else
    let s1 :=
      addTerminalLine "Error" ("Pipeline failed: " +:+ JS.to_string reason)
        false s in
    let s2 := set_status_label "PIPELINE FAILED" s1 in
    inl (set_stage_badge
           (fun _ => {| badge_class := failed_badge_class;
                        badge_content := "Failed" |})
           s2).

(** The [try] block from [const data = await res.json()] on.  A [null]
    body makes the first property read throw, before any element is
    touched; a field that cannot be converted to a string makes the write
    that needs it throw. *)
Definition on_data (data : JS.value) (s : state) : state + state * string :=
  let s1 := incr_pollCount s in
  match JS.get data "status" with
  | None => inr (s1, JS.null_access_message (first_read s1))
  | Some status =>
      match render data s1 with
      | inr thrown => inr thrown
      | inl s2 =>
          let s3 := visualize (prop data "current_step") s2 in
          if JS.strict_eq status (JS.Str "completed")
          then inl (on_completed s3)
          else if JS.strict_eq status (JS.Str "failed")
               then on_failed data s3
               else inl (setTimeout PollStatus 3000 s3)
      end
  end.

(** The [try] block of [pollStatus], given what [fetch] came back with:
    the state at normal exit, or the state and message at a throw. *)
Definition try_block (r : Net.result) (s : state) : state + state * string :=
  match r with
  | Net.NetworkError m => inr (s, m)
  | Net.Response status payload =>
      if Net.ok status then
        match payload with
        | Net.BadJson m => inr (s, m)
        | Net.Json data => on_data data s
        end
      else if Z.eqb status 404 then
        inl (setTimeout PollStatus 5000
               (addTerminalLine "Warn"
                  "Job not found on server (possible restart). Retrying..."
                  false s))
      else inr (s, "Status check failed: " +:+ pretty status)
  end.

(** The [catch] block of [pollStatus]. *)
Definition catch_block (m : string) (s : state) : state :=
  setTimeout PollStatus 5000
    (addTerminalLine "Warn" ("Connection issue: " +:+ m +:+ ". Retrying...")
       false (log_error ("Poll error: " +:+ m) s)).

Definition pollStatus (r : Net.result) (s : state) : state :=
  match try_block r s with
  | inl s' => s'
  | inr (s', m) => catch_block m s'
  end.

(** The URL [pollStatus] fetches. *)
Definition status_url (protocol jobId : string) : string :=
  Net.API_BASE protocol +:+ "/api/status/" +:+ jobId.

(** Page load: without a stored job id the page goes back to the create
    page; otherwise it announces the job and arms the first poll.  The
    job id the page polls for is returned. *)
Definition start (fileNameEl : option string) (s : state)
  : state * option string * option string :=
  let fileName :=
    match storage s !! "graniteFileName" with
    | Some n => if String.eqb n "" then "—" else n
    | None => "—"
    end in
  match storage s !! "graniteJobId" with
  | Some jobId =>
      if String.eqb jobId "" then (set_href "create.html" s, fileNameEl, None)
      else
        (setTimeout PollStatus 1000
           (addTerminalLine "System" ("Job ID: " +:+ jobId) false
              (addTerminalLine "System"
                 "Connected to Granite pipeline server" false s)),
         (fun _ => fileName) <$> fileNameEl,
         Some jobId)
  | None => (set_href "create.html" s, fileNameEl, None)
  end.

(** The next timer fires.  A poll timer issues its request and handles the
    answer [r]; the redirect timer leaves for the output page. *)
Definition fire (protocol jobId : string) (r : Net.result) (s : state)
  : state * list string :=
  match timers s with
  | (_, PollStatus) :: rest =>
      (pollStatus r (set_timers rest s), [status_url protocol jobId])
  | (_, GotoOutput) :: rest => (set_href "output.html" (set_timers rest s), [])
  | [] => (s, [])
  end.

(** The page's life after [start]: timers fire one after the other, the
    server giving the answers in turn; the status URLs requested are
    collected. *)
Fixpoint run (protocol jobId : string) (answers : list Net.result)
    (s : state) : state * list string :=
  match answers with
  | [] => (s, [])
  | r :: more =>
      let (s1, urls1) := fire protocol jobId r s in
      let (s2, urls2) := run protocol jobId more s1 in
      (s2, (urls1 ++ urls2)%list)
  end.

(** The process page from its load on: the status URLs it requests while
    the server gives [answers]. *)
Definition session (protocol : string) (fileNameEl : option string)
    (answers : list Net.result) (s : state) : state * list string :=
  match start fileNameEl s with
  | (s0, _, Some jobId) => run protocol jobId answers s0
  | (s0, _, None) => (s0, [])
  end.

(** *** Observations on one run of [pollStatus] *)

(** The state a block leaves behind, whether it returned or threw. *)
Definition after {A : Type} (r : state + state * A) : state :=
  match r with
  | inl s => s
  | inr (s, _) => s
  end.

(** The job status a poll learns: the [status] field of the parsed body of
    a 2xx response. *)
Definition reported_status (r : Net.result) : option JS.value :=
  match r with
  | Net.Response code (Net.Json data) =>
      if Net.ok code then JS.get data "status" else None
  | _ => None
  end.

(** The [current_step] a poll learns. *)
Definition polled_step (r : Net.result) : option JS.value :=
  match r with
  | Net.Response code (Net.Json data) =>
      if Net.ok code then JS.get data "current_step" else None
  | _ => None
  end.

(** The poll learnt that the job is [completed] or [failed]. *)
Definition terminal_status (r : Net.result) : bool :=
  match reported_status r with
  | Some v =>
      JS.strict_eq v (JS.Str "completed") || JS.strict_eq v (JS.Str "failed")
  | None => false
  end.


(** The timers armed between two states. *)
Definition scheduled (s s' : state) : list (Z * callback) :=
  drop (length (timers s)) (timers s').

Definition is_poll (t : Z * callback) : bool :=
  match snd t with
  | PollStatus => true
  | GotoOutput => false
  end.


(** The lines appended to the terminal log between two states. *)
Definition appended (s s' : state) : list line :=
  match terminal s, terminal s' with
  | Some l, Some l' => drop (length l) l'
  | _, _ => []
  end.

(** The line announcing stage number [i], and the line reporting it done. *)
Definition stage_line (i : nat) : line :=
  {| tag := "Pipeline"; message := label i +:+ "..."; isSuccess := false |}.

Definition completion_line (i : nat) : line :=
  {| tag := "Success"; message := label i +:+ " — completed";
     isSuccess := true |}.



(** The lines the guarded block of [pollStatus] appends when the polled
    step is [cur] and the step seen before is [last]. *)
Definition transition_lines (cur last : JS.value) : list line :=
  if negb (JS.strict_eq cur last) && negb (JS.strict_eq cur (JS.Str "queued"))
  then
    (match JS.indexOf stepNames cur with
     | Some i => [stage_line i]
     | None => []
     end)
    ++ (if JS.truthy last && negb (JS.strict_eq last (JS.Str "queued"))
        then match JS.indexOf stepNames last with
             | Some p => [completion_line p]
             | None => []
             end
        else [])
  else [].

Definition warn_line (m : string) : line :=
  {| tag := "Warn"; message := "Connection issue: " +:+ m +:+ ". Retrying...";
     isSuccess := false |}.

Definition not_found_line : line :=
  {| tag := "Warn";
     message := "Job not found on server (possible restart). Retrying...";
     isSuccess := false |}.

Definition done_line : line :=
  {| tag := "Success"; message := "Pipeline completed successfully! ✅";
     isSuccess := true |}.

(** The line has no [<] in its tag or message, so assigning it to
    [innerHTML] makes text and the three spans of the script only. *)
Fixpoint has_lt (t : string) : bool :=
  match t with
  | EmptyString => false
  | String c rest => Ascii.eqb c "<"%char || has_lt rest
  end.

Definition inert (ln : line) : bool :=
  negb (has_lt (tag ln)) && negb (has_lt (message ln)).

(** No field the handler converts to a string throws in the conversion. *)
Definition plain (data : JS.value) : bool :=
  negb (JS.throws (prop data "progress"))
  && negb (JS.throws (prop data "current_step"))
  && negb (JS.throws (prop data "message"))
  && negb (JS.throws (prop data "error")).

(** One of the three writes of [render] throws on this page: its element
    exists and the field it shows cannot be converted to a string. *)
Definition render_throws (data : JS.value) (s : state) : bool :=
  shows_progress s && JS.throws (prop data "progress")
  || bool_decide (is_Some (stage_badge s))
     && stage_throws (prop data "current_step")
  || bool_decide (is_Some (status_label s))
     && JS.throws (JS.or (prop data "message") (JS.Str "Processing...")).

(** The poll got the parsed, non-null body of a 2xx response, and a field
    the handler has to show cannot be converted to a string: one of the
    three fields of [render], or the reason of a [failed] status. *)
Definition conversion_fails (r : Net.result) (s : state) : bool :=
  match r with
  | Net.Response code (Net.Json data) =>
      Net.ok code
      && match JS.get data "status" with
         | Some st =>
             render_throws data s
             || negb (JS.strict_eq st (JS.Str "completed"))
                && JS.strict_eq st (JS.Str "failed")
                && JS.throws (JS.or (prop data "error")
                                    (prop data "message"))
         | None => false
         end
  | _ => false
  end.

Definition failure_line (data : JS.value) : line :=
  {| tag := "Error";
     message := "Pipeline failed: "
                +:+ JS.to_string (JS.or (prop data "error")
                                        (prop data "message"));
     isSuccess := false |}.

(** The lines one run of [pollStatus] appends to the log, by outcome. *)
Definition poll_lines (r : Net.result) (s : state) : list line :=
  match r with
  | Net.NetworkError m => [warn_line m]
  | Net.Response code payload =>
      if Net.ok code then
        match payload with
        | Net.BadJson m => [warn_line m]
        | Net.Json data =>
            match JS.get data "status" with
            | None => [warn_line (JS.null_access_message (first_read s))]
            | Some st =>
                if render_throws data s
                then [warn_line JS.conversion_message]
                else
                  transition_lines (prop data "current_step") (lastStep s)
                  ++ (if JS.strict_eq st (JS.Str "completed")
                      then [done_line]
                      else if JS.strict_eq st (JS.Str "failed")
                           then if JS.throws (JS.or (prop data "error")
                                                    (prop data "message"))
                                then [warn_line JS.conversion_message]
                                else [failure_line data]
                           else [])
            end
        end
      else if Z.eqb code 404 then [not_found_line]
      else [warn_line ("Status check failed: " +:+ pretty code)]
  end.

(** The timers one run of [pollStatus] arms, by outcome. *)
Definition poll_timers (r : Net.result) (s : state)
  : list (Z * callback) :=
  match r with
  | Net.Response code (Net.Json data) =>
      if Net.ok code then
        match JS.get data "status" with
        | None => [(5000%Z, PollStatus)]
        | Some st =>
            if conversion_fails r s then [(5000%Z, PollStatus)]
            else if JS.strict_eq st (JS.Str "completed")
                 then [(2000%Z, GotoOutput)]
                 else if JS.strict_eq st (JS.Str "failed") then []
                      else [(3000%Z, PollStatus)]
        end
      else [(5000%Z, PollStatus)]
  | _ => [(5000%Z, PollStatus)]
  end.

End Process.

(** ** The output page *)

Module Output.

Record dom : Type :=
  { project_title : option string;
    prompt_display : option string;
    video_src : option (option string);
    loading_overlay : option string;
    download_btn : option (option string) }.

Definition no_video_html : string :=
  Create.nl
  +:+ "        <div class=" +:+ JS.dq +:+ "flex flex-col items-center gap-4"
  +:+ JS.dq +:+ ">" +:+ Create.nl
  +:+ "          <span class=" +:+ JS.dq
  +:+ "material-icons text-4xl text-white/20" +:+ JS.dq
  +:+ ">videocam_off</span>" +:+ Create.nl
  +:+ "          <span class=" +:+ JS.dq
  +:+ "text-sm font-mono text-white/40" +:+ JS.dq
  +:+ ">No video available</span>" +:+ Create.nl
  +:+ "        </div>" +:+ Create.nl
  +:+ "      ".

(** [localStorage.getItem(k)] tested for truthiness. *)
Definition stored (storage : gmap string string) (k : string)
  : option string :=
  match storage !! k with
  | Some v => if String.eqb v "" then None else Some v
  | None => None
  end.

Definition video_url (protocol jobId : string) : string :=
  Net.API_BASE protocol +:+ "/api/video/" +:+ jobId.

(** Page load.  [video_src] is the [src] of [#output-video]: assigning it
    makes the browser request that URL.  [download_btn] is the URL the
    button's click listener downloads, when a listener was attached. *)
Definition load (protocol : string) (storage : gmap string string) (d : dom)
  : dom :=
  let jobId := stored storage "graniteJobId" in
  let topic := default "Generated Video" (stored storage "currentProjectTopic") in
  {| project_title := (fun _ => topic) <$> project_title d;
     prompt_display := (fun _ => JS.dq +:+ topic +:+ JS.dq) <$> prompt_display d;
     video_src :=
       match video_src d, jobId with
       | Some _, Some j => Some (Some (video_url protocol j))
       | v, _ => v
       end;
     loading_overlay :=
       match video_src d, jobId with
       | Some _, Some _ => loading_overlay d
       | _, _ => (fun _ => no_video_html) <$> loading_overlay d
       end;
     download_btn :=
       match download_btn d, jobId with
       | Some _, Some j => Some (Some (video_url protocol j))
       | b, _ => b
       end |}.

(** The request the page makes for the video, if any. *)
Definition video_request (d : dom) : option string :=
  match video_src d with
  | Some src => src
  | None => None
  end.

End Output.

(** ** The pipeline definition *)

Module Pipeline.

(** The agents of the back end, as its README lists them. *)
Definition agents : list string :=
  ["Content Extractor"; "Lesson Planner"; "Manim Animator";
   "Narrator"; "Video Composer"; "Quality Checker"].

(** Modelled from the spec: the Pipeline Definition, whose code is not part
    of the sources at hand.  It is the fixed ordered list of stages
    extraction, planning, animation, narration, composition, quality. *)
Inductive stage : Type :=
| Extraction
| Planning
| Animation
| Narration
| Composition
| Quality.

#[export] Instance stage_eq_dec : EqDecision stage.
Proof. solve_decision. Defined.

(** Modelled from the spec: the fixed stage order. *)
Definition stages : list stage :=
  [Extraction; Planning; Animation; Narration; Composition; Quality].

(** Modelled from the spec: the name a stage has in status responses. *)
Definition stage_name (s : stage) : string :=
  match s with
  | Extraction => "extraction"
  | Planning => "planning"
  | Animation => "animation"
  | Narration => "narration"
  | Composition => "composition"
  | Quality => "quality"
  end.

(** Modelled from the spec: the [currentStage] of a job, one of the six
    stages or the sentinel [queued] it holds before execution starts. *)
Inductive current_stage : Type :=
| Queued
| At (s : stage).

(** Modelled from the spec: the [current_step] string of a status
    response. *)
Definition current_step (c : current_stage) : string :=
  match c with
  | Queued => "queued"
  | At s => stage_name s
  end.

(** The position of a stage in the fixed stage order, from 0. *)
Definition position (s : stage) : nat :=
  default 0 (fst <$> list_find (fun x => x = s) stages).

(** The index of [currentStage] in the stage order: 0 for the sentinel,
    then the stages numbered from 1, as the client numbers them. *)
Definition index (c : current_stage) : nat :=
  match c with
  | Queued => 0
  | At s => S (position s)
  end.

(** A run of stage indices that, from index [n] on, never goes back, moves
    by at most one stage at a time and stays within the pipeline. *)
Fixpoint forward (n : nat) (l : list nat) : Prop :=
  match l with
  | [] => True
  | x :: rest => n <= x <= S n /\ x <= length stages /\ forward x rest
  end.

End Pipeline.

(** ** Job store, orchestrator and submission endpoint *)

Module Server.

Import Pipeline.

(** Modelled from the spec: the [status] of a job. *)
Inductive status : Type :=
| StatusQueued
| Running
| Completed
| Failed.

Section Jobs.

(** What flows between stages (the first stage receives the input of the
    job) and what the Artifact Store hands back for a saved artifact. *)
Variables payload artifact_ref : Type.

(** Modelled from the spec: the Job record of the data model. *)
Record job : Type :=
  { id : string;
    job_status : status;
    currentStage : current_stage;
    progress : nat;
    message : string;
    error : option string;
    input : payload;
    artifactRef : option artifact_ref;
    createdAt : N }.

(** Modelled from the spec: a job as the Submission Endpoint creates it,
    [queued] with progress 0. *)
Definition create (i : string) (inp : payload) (now : N) : job :=
  {| id := i; job_status := StatusQueued; currentStage := Queued;
     progress := 0; message := ""; error := None; input := inp;
     artifactRef := None; createdAt := now |}.

(** The stage handlers ([(previousOutput, jobMetadata) -> (output, error)]),
    the message shown for a stage, and [Save] of the Artifact Store. *)
Variable handler : stage -> payload -> job -> payload + string.
Variable describe : stage -> string.
Variable save : string -> payload -> artifact_ref.

(** Modelled from the spec: the update the Orchestrator makes on entering
    stage number [i]: [currentStage], [message] and
    [progress = i / total * 100]. *)
Definition enter_stage (i : nat) (st : stage) (j : job) : job :=
  {| id := id j; job_status := job_status j; currentStage := At st;
     progress := i * 100 / length stages; message := describe st;
     error := error j; input := input j; artifactRef := artifactRef j;
     createdAt := createdAt j |}.

(** Modelled from the spec: the update on a stage failure; [currentStage]
    stays at the failing stage. *)
Definition fail (e : string) (j : job) : job :=
  {| id := id j; job_status := Failed; currentStage := currentStage j;
     progress := progress j; message := message j;
     error := Some e; input := input j; artifactRef := artifactRef j;
     createdAt := createdAt j |}.

(** Modelled from the spec: step 3 of the Orchestrator, after the last
    stage has succeeded. *)
Definition complete (r : artifact_ref) (j : job) : job :=
  {| id := id j; job_status := Completed; currentStage := currentStage j;
     progress := 100; message := message j;
     error := error j; input := input j; artifactRef := Some r;
     createdAt := createdAt j |}.

(** Modelled from the spec: step 1 of the Orchestrator. *)
Definition begin (j : job) : job :=
  {| id := id j; job_status := Running;
     currentStage := match stages with
                     | s0 :: _ => At s0
                     | [] => currentStage j
                     end;
     progress := 0; message := message j;
     error := error j; input := input j; artifactRef := artifactRef j;
     createdAt := createdAt j |}.

(** Modelled from the spec: steps 2 and 3 of the Orchestrator, from stage
    number [i] on.  The result is the sequence of records it writes to the
    Job Store: on entering a stage; on its failure, which ends the job; and
    after the last stage, on completion. *)
Fixpoint run_stages (i : nat) (rest : list stage) (prev : payload) (j : job)
  : list job :=
  match rest with
  | [] => [complete (save (id j) prev) j]
  | st :: rest' =>
      let j1 := enter_stage i st j in
      j1 :: match handler st prev j1 with
            | inl out => run_stages (S i) rest' out j1
            | inr e => [fail e j1]
            end
  end.

(** Modelled from the spec: the execution of one job by the Orchestrator:
    step 1, then the stages in order. *)
Definition execute (j : job) : list job :=
  let j0 := begin j in
  j0 :: run_stages 0 stages (input j) j0.

(** Modelled from the spec: every record a job has over its lifetime, from
    its creation by the Submission Endpoint to the end of its execution. *)
Definition lifetime (i : string) (inp : payload) (now : N) : list job :=
  let j := create i inp now in
  j :: execute j.

(** Modelled from the spec: a submission, a multipart body with an optional
    file field and an optional text field. *)
Record submission (document : Type) : Type :=
  { sub_file : option document; sub_description : option string }.

(** Modelled from the spec: the Job Store with the jobs handed to the
    Orchestrator. *)
Record store : Type :=
  { jobs : gmap string job; submitted : list string }.

(** Modelled from the spec: the answer of the Submission Endpoint, the job
    identifier or an HTTP error with a descriptive body. *)
Inductive response : Type :=
| Accepted (job_id : string)
| Rejected (code : Z) (detail : string).

(** Modelled from the spec: the Submission Endpoint.  A request with
    neither input present is a validation failure, answered with HTTP 400;
    otherwise a job is created under a fresh identifier, handed to the
    Orchestrator, and its identifier returned. *)
Definition submit {document : Type}
    (fresh : gmap string job -> string)
    (ingest : option document -> option string -> payload)
    (no_input : string) (now : N)
    (req : submission document) (st : store) : response * store :=
  match sub_file _ req, sub_description _ req with
  | None, None => (Rejected 400 no_input, st)
  | f, d =>
      let i := fresh (jobs st) in
      (Accepted i,
       {| jobs := <[i := create i (ingest f d) now]> (jobs st);
          submitted := submitted st ++ [i] |})
  end.

End Jobs.

(** The submission the endpoint reads from the form the client sends: the
    [file] field and the [description] field. *)
Fixpoint of_form (form : list (string * Create.form_value))
  : submission Create.file :=
  match form with
  | [] => {| sub_file := None; sub_description := None |}
  | (k, v) :: rest =>
      let r := of_form rest in
      match v with
      | Create.FormFile f =>
          if String.eqb k "file"
          then {| sub_file := Some f;
                  sub_description := sub_description _ r |}
          else r
      | Create.FormText t =>
          if String.eqb k "description"
          then {| sub_file := sub_file _ r; sub_description := Some t |}
          else r
      end
  end.

End Server.

(** ** Page detection and the login page *)

Module Router.

(** [s.split(sep)] for a one-character separator. *)
Fixpoint split (sep : ascii) (s : string) : list string :=
  match s with
  | EmptyString => [EmptyString]
  | String c rest =>
      if Ascii.eqb c sep then EmptyString :: split sep rest
      else match split sep rest with
           | [] => [String c EmptyString]
           | w :: ws => String c w :: ws
           end
  end.

(** [s.endsWith(suffix)]. *)
Fixpoint endsWith (s suffix : string) : bool :=
  String.eqb s suffix
  || match s with
     | EmptyString => false
     | String _ rest => endsWith rest suffix
     end.

(** [path.split("/").pop() || "index.html"]. *)
Definition page (path : string) : string :=
  let last := List.last (split "/"%char path) EmptyString in
  if String.eqb last "" then "index.html" else last.

(** [sessionStorage.getItem("isLoggedIn") === "true"]. *)
Definition isLoggedIn (session : gmap string string) : bool :=
  match session !! "isLoggedIn" with
  | Some v => String.eqb v "true"
  | None => false
  end.

(** The page blocks of the [DOMContentLoaded] handler. *)
Inductive block : Type :=
| LoginBlock
| CreateBlock
| ProcessBlock
| OutputBlock.

(** What the [DOMContentLoaded] handler does with a path: it leaves for the
    dashboard, or runs the blocks whose page test holds, in order. *)
Inductive loaded : Type :=
| Redirect (target : string)
| Blocks (bs : list block).

Definition DOMContentLoaded (path : string) (session : gmap string string)
  : loaded :=
  if endsWith path "login.html" && isLoggedIn session
  then Redirect "dashboard.html"
  else
    Blocks
      ((if String.eqb (page path) "login.html" then [LoginBlock] else [])
       ++ (if String.eqb (page path) "create.html" then [CreateBlock] else [])
       ++ (if String.eqb (page path) "process.html" then [ProcessBlock] else [])
       ++ (if String.eqb (page path) "output.html" then [OutputBlock] else [])).

(** What a submit of the login form leaves behind: the session storage,
    the page it goes to, the alert it raises. *)
Record submitted : Type :=
  { session_after : gmap string string;
    target : option string;
    alerted : option string }.

(** The [submit] listener of the login form, given the values of the
    [#email] and [#password] inputs. *)
Definition submit (email password : string) (session : gmap string string)
  : submitted :=
  if String.eqb email "hola@gmail.com" && String.eqb password "hola123"
  then {| session_after := <["isLoggedIn" := "true"]> session;
          target := Some "dashboard.html";
          alerted := None |}
  else {| session_after := session;
          target := None;
          alerted := Some "Invalid credentials! Try hola@gmail.com / hola123" |}.

End Router.

(** ** The create page: the file input *)

Module Upload.

(** The two paragraphs of the drop zone the [change] listener writes,
    absent when their selector matches nothing. *)
Record zone : Type :=
  { headline : option string; subtitle : option string }.

(** The number of tenths that [(size / 1024 / 1024).toFixed(1)] prints.
    A file size is an integer below 2^53, so both divisions by 1024 are
    exact, and [toFixed(1)] picks the integer [n] nearest to ten times
    that quotient, the larger one on a tie. *)
Definition tenths (size : N) : N := ((size * 20 + 2 ^ 20) / 2 ^ 21)%N.

(** [(size / 1024 / 1024).toFixed(1)]. *)
Definition sizeMB (size : N) : string :=
  pretty (tenths size / 10)%N +:+ "." +:+ pretty (tenths size mod 10)%N.

(** The [change] listener of the file input. *)
Definition change (files : list Create.file) (z : zone) : zone :=
  match files with
  | [] => z
  | f :: _ =>
      {| headline := (fun _ => "📄 " +:+ Create.name f) <$> headline z;
         subtitle :=
           (fun _ => sizeMB (Create.size f) +:+ " MB — Ready to upload")
             <$> subtitle z |}
  end.

End Upload.

(** ** The output page: title and prompt *)

Module Player.

(** [localStorage.getItem("currentProjectTopic") || "Generated Video"]. *)
Definition topic (storage : gmap string string) : string :=
  default "Generated Video" (Output.stored storage "currentProjectTopic").

(** The text written into [#prompt-display]. *)
Definition prompt_text (t : string) : string :=
  if String.eqb t "" then "No description provided"
  else JS.dq +:+ t +:+ JS.dq.

End Player.

(** ** Observations on a whole polling session *)

Module Session.

Import Process.

(** The status requests a page with one poll armed makes while the server
    gives [answers]: one per answer, up to and including the first answer
    with a terminal status. *)
Fixpoint polls_made (answers : list Net.result) : nat :=
  match answers with
  | [] => 0
  | r :: more => S (if terminal_status r then 0 else polls_made more)
  end.

(** Every field of the answer that the handler may have to show can be
    converted to a string. *)
Definition convertible (r : Net.result) : bool :=
  match r with
  | Net.Response _ (Net.Json data) => plain data
  | _ => true
  end.

(** Which elements the page has. *)
Definition shape (s : state)
  : gset string * (bool * bool * bool) * (bool * bool * bool) :=
  (dom (steps s),
   (bool_decide (is_Some (top_bar s)),
    bool_decide (is_Some (frame_bar s)),
    bool_decide (is_Some (progress_label s))),
   (bool_decide (is_Some (stage_badge s)),
    bool_decide (is_Some (status_label s)),
    bool_decide (is_Some (terminal s)))).

(** The display [updatePipelineStep] gives row number [j] when the current
    stage has number [k]. *)
Definition row_display (k j : nat) (el : step_el) : step_el :=
  if Nat.ltb j k then completed_el j el
  else if Nat.eqb j k then active_el j el
  else el.

(** The row all rows get when the job completes. *)
Definition finished_el (el : step_el) : step_el :=
  set_step_badge
    {| badge_class := success_badge_class; badge_content := "Success" |}
    (undim el).

End Session.

(** ** A concrete page and concrete answers, for running the model *)

Module Demo.

Import Process.

Definition row : step_el :=
  {| classes := ["grid"; "opacity-50"; "grayscale"];
     style_opacity := "";
     style_filter := "";
     step_badge := Some {| badge_class := "step-badge";
                           badge_content := "Pending" |};
     title_class := Some "text-sm";
     desc := Some ("step-desc", "Waiting") |}.

Definition page : state :=
  {| top_bar := Some "0%";
     frame_bar := Some "0%";
     progress_label := Some "0%";
     stage_badge := Some {| badge_class := "badge"; badge_content := "" |};
     status_label := Some "";
     terminal := Some [];
     steps := list_to_map ((fun i => (i, row)) <$> stepIds);
     lastStep := JS.Str "";
     pollCount := 0;
     console := [];
     timers := [];
     storage := {[ "graniteJobId" := "job-42" ]};
     href := "process.html" |}.

(** A status response body. *)
Definition answer (status step : string) : JS.value :=
  JS.Obj [("status", JS.Str status); ("current_step", JS.Str step);
          ("progress", JS.Num "50"); ("message", JS.Str "Working")].






Definition ok200 (status step : string) : Net.result :=
  Net.Response 200 (Net.Json (answer status step)).

Definition player : Output.dom :=
  {| Output.project_title := Some "";
     Output.prompt_display := Some "";
     Output.video_src := Some None;
     Output.loading_overlay := Some "<div class='loader'></div>";
     Output.download_btn := Some None |}.

End Demo.

(** ** More concrete states *)

Module Samples.

(** A process page without any of the elements the script looks up. *)
Definition bare_page (st : gmap string string) : Process.state :=
  {| Process.top_bar := None; Process.frame_bar := None;
     Process.progress_label := None; Process.stage_badge := None;
     Process.status_label := None; Process.terminal := None;
     Process.steps := ∅; Process.lastStep := JS.Str "";
     Process.pollCount := 0; Process.console := [];
     Process.timers := []; Process.storage := st;
     Process.href := "process.html" |}.

(** The create page before any click. *)
Definition fresh (st : gmap string string) : Create.state :=
  {| Create.btn_disabled := false; Create.btn_html := "";
     Create.storage := st; Create.href := "create.html";
     Create.alerts := []; Create.sent := [] |}.

(** A server that accepts every submission under the same job id. *)
Definition accept (jobId : string) (_ : Create.request) : Net.result :=
  Net.Response 200 (Net.Json (JS.Obj [("job_id", JS.Str jobId)])).

End Samples.

(** * Properties *)

(** ** Frame lemmas for the process page *)

Section ProcessFrames.

Import Process.


Lemma strict_eq_str_l (v : JS.value) (x : string) :
  JS.strict_eq (JS.Str x) v = true <-> v = JS.Str x.
Proof.
  split.
  - destruct v; simpl; try discriminate.
    intros H. apply String.eqb_eq in H. by subst.
  - intros ->. simpl. apply String.eqb_refl.
Qed.

Lemma indexOf_Some (arr : list string) (v : JS.value) (i : nat) :
  JS.indexOf arr v = Some i -> exists x, v = JS.Str x /\ arr !! i = Some x.
Proof.
  revert i. induction arr as [|a arr IH]; intros i; cbn [JS.indexOf];
    [discriminate|].
  destruct (JS.strict_eq (JS.Str a) v) eqn:E.
  - intros Hi. injection Hi as Hi. subst i.
    apply strict_eq_str_l in E. exists a. by split.
  - destruct (JS.indexOf arr v) as [k|]; [|discriminate].
    intros Hi. injection Hi as Hi. subst i.
    destruct (IH k eq_refl) as (x & -> & Hx). by exists x.
Qed.

Lemma updatePipelineStep_frame (v : JS.value) (s : state) :
  let s' := updatePipelineStep v s in
  timers s' = timers s /\ terminal s' = terminal s
  /\ lastStep s' = lastStep s /\ storage s' = storage s /\ href s' = href s
  /\ stage_badge s' = stage_badge s /\ status_label s' = status_label s
  /\ pollCount s' = pollCount s.
Proof.
  unfold updatePipelineStep. destruct (JS.indexOf stepNames v); simpl; tauto.
Qed.

Lemma visualize_frame (v : JS.value) (s : state) :
  let s' := visualize v s in
  timers s' = timers s /\ storage s' = storage s /\ href s' = href s
  /\ stage_badge s' = stage_badge s /\ status_label s' = status_label s
  /\ pollCount s' = pollCount s.
Proof.
  unfold visualize.
  destruct (negb (JS.strict_eq v (lastStep s))
            && negb (JS.strict_eq v (JS.Str "queued"))); [|simpl; tauto].
  destruct (updatePipelineStep_frame v s) as (Ht & _ & _ & Hs & Hh & Hb & Hl & Hp).
  destruct (JS.indexOf stepNames v);
    destruct (JS.truthy (lastStep s)
              && negb (JS.strict_eq (lastStep s) (JS.Str "queued")));
    try destruct (JS.indexOf stepNames (lastStep s)); simpl; tauto.
Qed.

Lemma visualize_terminal (v : JS.value) (s : state) :
  terminal (visualize v s)
  = (fun l : list line => (l ++ transition_lines v (lastStep s))%list)
      <$> terminal s.
Proof.
  unfold visualize, transition_lines.
  destruct (negb (JS.strict_eq v (lastStep s))
            && negb (JS.strict_eq v (JS.Str "queued"))).
  2:{ destruct (terminal s); simpl; [by rewrite app_nil_r | done]. }
  destruct (updatePipelineStep_frame v s) as (_ & Ht & _).
  cbv zeta in Ht.
  destruct (JS.indexOf stepNames v);
    destruct (JS.truthy (lastStep s)
              && negb (JS.strict_eq (lastStep s) (JS.Str "queued")));
    try destruct (JS.indexOf stepNames (lastStep s));
    cbn [terminal set_lastStep addTerminalLine set_terminal];
    rewrite ?Ht; destruct (terminal s); cbn [fmap option_fmap option_map];
    rewrite <- ?app_assoc, ?app_nil_r; reflexivity.
Qed.

Lemma render_frame (data : JS.value) (s : state) :
  let s' := after (render data s) in
  timers s' = timers s /\ terminal s' = terminal s
  /\ lastStep s' = lastStep s /\ storage s' = storage s /\ href s' = href s
  /\ steps s' = steps s /\ pollCount s' = pollCount s.
Proof.
  cbv zeta. unfold render.
  destruct (shows_progress s && JS.throws (prop data "progress"));
    [cbn; tauto|].
  destruct (bool_decide _ && stage_throws _); [cbn; tauto|].
  destruct (bool_decide _ && JS.throws _); cbn; tauto.
Qed.

Lemma render_cases (data : JS.value) (s : state) :
  if render_throws data s
  then exists s', render data s = inr (s', JS.conversion_message)
  else exists s', render data s = inl s'.
Proof.
  unfold render_throws, render.
  destruct (shows_progress s && JS.throws (prop data "progress"));
    [by eexists|].
  change (stage_badge (set_progress _ s)) with (stage_badge s).
  destruct (bool_decide (is_Some (stage_badge s)) && stage_throws _);
    [by eexists|].
  change (status_label (set_stage_badge _ (set_progress _ s)))
    with (status_label s).
  destruct (bool_decide (is_Some (status_label s)) && JS.throws _);
    by eexists.
Qed.

Lemma render_throws_incr (data : JS.value) (s : state) :
  render_throws data (incr_pollCount s) = render_throws data s.
Proof. reflexivity. Qed.

(** [pollStatus] on the parsed body of a 2xx response that has a
    [status]. *)
Lemma pollStatus_json (code : Z) (data st : JS.value) (s : state) :
  Net.ok code = true ->
  JS.get data "status" = Some st ->
  if render_throws data s
  then exists s1,
      render data (incr_pollCount s) = inr (s1, JS.conversion_message)
      /\ pollStatus (Net.Response code (Net.Json data)) s
         = catch_block JS.conversion_message s1
  else exists s1,
      render data (incr_pollCount s) = inl s1
      /\ pollStatus (Net.Response code (Net.Json data)) s
         = let s2 := visualize (prop data "current_step") s1 in
           if JS.strict_eq st (JS.Str "completed") then on_completed s2
           else if JS.strict_eq st (JS.Str "failed")
                then if JS.throws (JS.or (prop data "error")
                                         (prop data "message"))
                     then catch_block JS.conversion_message s2
                     else after (on_failed data s2)
                else setTimeout PollStatus 3000 s2.
Proof.
  intros Hok Hst. unfold pollStatus, try_block, on_data. rewrite Hok, Hst.
  pose proof (render_cases data (incr_pollCount s)) as H.
  rewrite render_throws_incr in H.
  destruct (render_throws data s); destruct H as [s1 H]; exists s1;
    rewrite H; (split; [reflexivity|]); [reflexivity|].
  cbv zeta.
  destruct (JS.strict_eq st (JS.Str "completed")); [reflexivity|].
  destruct (JS.strict_eq st (JS.Str "failed")); [|reflexivity].
  unfold on_failed. by destruct (JS.throws _).
Qed.

Lemma frame_after_render (data : JS.value) (s s1 : state) (m : string) :
  render data s = inl s1 \/ render data s = inr (s1, m) ->
  timers s1 = timers s /\ terminal s1 = terminal s
  /\ lastStep s1 = lastStep s /\ storage s1 = storage s /\ href s1 = href s
  /\ steps s1 = steps s /\ pollCount s1 = pollCount s.
Proof.
  intros H. pose proof (render_frame data s) as F. cbv zeta in F.
  by destruct H as [H | H]; rewrite H in F.
Qed.

Lemma pollStatus_timers (r : Net.result) (s : state) :
  timers (pollStatus r s) = (timers s ++ poll_timers r s)%list.
Proof.
  destruct r as [m | code [m | data]]; [reflexivity | |].
  { unfold pollStatus, try_block, poll_timers, catch_block.
    destruct (Net.ok code); [reflexivity|]. by destruct (Z.eqb code 404). }
  destruct (Net.ok code) eqn:Hok.
  2:{ unfold pollStatus, try_block, poll_timers, catch_block. rewrite Hok.
      by destruct (Z.eqb code 404). }
  destruct (JS.get data "status") as [st|] eqn:Hst.
  2:{ unfold pollStatus, try_block, poll_timers, on_data, catch_block.
      by rewrite Hok, Hst. }
  pose proof (pollStatus_json code data st s Hok Hst) as H.
  unfold poll_timers, conversion_fails. rewrite Hok, Hst. cbn [andb].
  destruct (render_throws data s); destruct H as (s1 & Hr & ->).
  - destruct (frame_after_render data _ s1 JS.conversion_message
                (or_intror Hr)) as (Ht & _).
    cbn [orb]. unfold catch_block.
    cbn [timers setTimeout addTerminalLine set_terminal log_error].
    by rewrite Ht.
  - destruct (frame_after_render data _ s1 "" (or_introl Hr)) as (Ht & _).
    pose proof (visualize_frame (prop data "current_step") s1) as (Hv & _).
    cbv zeta in Hv. cbv zeta. cbn [orb].
    destruct (JS.strict_eq st (JS.Str "completed"));
      [|destruct (JS.strict_eq st (JS.Str "failed"));
        [unfold on_failed; destruct (JS.throws _)|]];
      cbn [negb andb after catch_block timers on_completed setTimeout
           set_steps addTerminalLine set_terminal set_status_label
           set_stage_badge log_error];
      unfold catch_block;
      cbn [timers setTimeout addTerminalLine set_terminal log_error];
      rewrite Hv, Ht; cbn; by rewrite ?app_nil_r.
Qed.

Lemma pollStatus_terminal (r : Net.result) (s : state) :
  terminal (pollStatus r s)
  = (fun l : list line => (l ++ poll_lines r s)%list) <$> terminal s.
Proof.
  destruct r as [m | code [m | data]]; [reflexivity | |].
  { unfold pollStatus, try_block, poll_lines, catch_block.
    destruct (Net.ok code); [reflexivity|]. by destruct (Z.eqb code 404). }
  destruct (Net.ok code) eqn:Hok.
  2:{ unfold pollStatus, try_block, poll_lines, catch_block. rewrite Hok.
      by destruct (Z.eqb code 404). }
  destruct (JS.get data "status") as [st|] eqn:Hst.
  2:{ unfold pollStatus, try_block, poll_lines, on_data, catch_block.
      by rewrite Hok, Hst. }
  pose proof (pollStatus_json code data st s Hok Hst) as H.
  unfold poll_lines. rewrite Hok, Hst.
  destruct (render_throws data s); destruct H as (s1 & Hr & ->).
  - destruct (frame_after_render data _ s1 JS.conversion_message
                (or_intror Hr)) as (_ & Ht & _).
    unfold catch_block.
    cbn [terminal setTimeout addTerminalLine set_terminal log_error].
    by rewrite Ht.
  - destruct (frame_after_render data _ s1 "" (or_introl Hr))
      as (_ & Ht & Hl & _).
    pose proof (visualize_terminal (prop data "current_step") s1) as Hv.
    rewrite Ht, Hl in Hv.
    change (terminal (incr_pollCount s)) with (terminal s) in Hv.
    change (lastStep (incr_pollCount s)) with (lastStep s) in Hv.
    cbv zeta.
    destruct (JS.strict_eq st (JS.Str "completed"));
      [|destruct (JS.strict_eq st (JS.Str "failed"));
        [unfold on_failed; destruct (JS.throws _)|]];
      unfold catch_block;
      cbn [after terminal on_completed setTimeout set_steps
           addTerminalLine set_terminal set_status_label set_stage_badge
           log_error];
      rewrite Hv; destruct (terminal s);
      cbn [fmap option_fmap option_map];
      rewrite <- ?app_assoc, ?app_nil_r; reflexivity.
Qed.


Lemma scheduled_pollStatus (r : Net.result) (s : state) :
  scheduled s (pollStatus r s) = poll_timers r s.
Proof.
  unfold scheduled. rewrite pollStatus_timers. by rewrite drop_app_length.
Qed.


Lemma get_prop (data : JS.value) (k k' : string) (x : JS.value) :
  JS.get data k = Some x -> JS.get data k' = Some (prop data k').
Proof. unfold prop. destruct data; simpl; intros H; by inversion H. Qed.

Lemma prop_get (data : JS.value) (k : string) (x : JS.value) :
  JS.get data k = Some x -> prop data k = x.
Proof. unfold prop. by intros ->. Qed.



Lemma visualize_lastStep (v : JS.value) (s : state) :
  lastStep (visualize v s)
  = if negb (JS.strict_eq v (lastStep s))
       && negb (JS.strict_eq v (JS.Str "queued"))
    then v else lastStep s.
Proof.
  unfold visualize.
  destruct (negb (JS.strict_eq v (lastStep s))
            && negb (JS.strict_eq v (JS.Str "queued"))); reflexivity.
Qed.

Lemma pollStatus_lastStep (code : Z) (data v : JS.value) (s : state) :
  Net.ok code = true ->
  JS.get data "current_step" = Some v ->
  lastStep (pollStatus (Net.Response code (Net.Json data)) s)
  = if negb (render_throws data s)
       && negb (JS.strict_eq v (lastStep s))
       && negb (JS.strict_eq v (JS.Str "queued"))
    then v else lastStep s.
Proof.
  intros Hok Hv.
  pose proof (pollStatus_json code data _ s Hok
                (get_prop data "current_step" "status" v Hv)) as H.
  rewrite (prop_get _ _ _ Hv) in H.
  destruct (render_throws data s); destruct H as (s1 & Hr & ->).
  - destruct (frame_after_render data _ s1 JS.conversion_message
                (or_intror Hr)) as (_ & _ & Hl & _).
    unfold catch_block.
    cbn [lastStep setTimeout addTerminalLine set_terminal log_error].
    by rewrite Hl.
  - destruct (frame_after_render data _ s1 "" (or_introl Hr))
      as (_ & _ & Hl & _).
    change (lastStep (incr_pollCount s)) with (lastStep s) in Hl.
    pose proof (visualize_lastStep v s1) as Hv1. rewrite Hl in Hv1.
    cbv zeta. cbn [negb andb].
    destruct (JS.strict_eq (prop data "status") (JS.Str "completed"));
      [|destruct (JS.strict_eq (prop data "status") (JS.Str "failed"));
        [unfold on_failed; destruct (JS.throws _)|]];
      exact Hv1.
Qed.


Lemma indexOf_stepNames (p : nat) (name : string) :
  stepNames !! p = Some name -> JS.indexOf stepNames (JS.Str name) = Some p.
Proof.
  do 6 (destruct p as [|p];
        [intros H; injection H as <-; reflexivity|]).
  discriminate.
Qed.




Lemma throws_or (a b : JS.value) :
  JS.throws a = false -> JS.throws b = false -> JS.throws (JS.or a b) = false.
Proof. unfold JS.or. by destruct (JS.truthy a). Qed.

Lemma stage_throws_le (v : JS.value) :
  JS.throws v = false -> stage_throws v = false.
Proof. unfold stage_throws. by destruct (JS.indexOf stepNames v). Qed.

Lemma plain_conversion (code : Z) (data : JS.value) (s : state) :
  plain data = true ->
  conversion_fails (Net.Response code (Net.Json data)) s = false.
Proof.
  unfold plain. rewrite !andb_true_iff, !negb_true_iff.
  intros (((Hp & Hc) & Hm) & He).
  unfold conversion_fails, render_throws.
  rewrite Hp, (stage_throws_le _ Hc),
    (throws_or _ (JS.Str "Processing...") Hm eq_refl),
    (throws_or _ _ He Hm), !andb_false_r.
  destruct (Net.ok code); [|reflexivity].
  destruct (JS.get data "status") as [st|]; [|reflexivity].
  cbn [andb orb]. apply andb_false_r.
Qed.












End ProcessFrames.

(** ** The polling loop *)

Section Polling.

Import Process.







(** C4.  An HTTP 404 answer to a poll is treated as transient: the handler
    appends the warning line to the log, arms the next poll 5000 ms ahead,
    and changes nothing else: the page is not left, the stored job id and
    the rest of the storage stay, the step rows and the last step seen
    stay; when the timer fires, the same status URL is requested again. *)
Theorem not_found_is_retried (s : state) (payload : Net.body)
    (protocol jobId : string) (r' : Net.result) :
  let s' := pollStatus (Net.Response 404 payload) s in
  terminal s'
  = (fun l : list line => (l ++ [not_found_line])%list) <$> terminal s
  /\ tag not_found_line = "Warn"
  /\ timers s' = (timers s ++ [(5000%Z, PollStatus)])%list
  /\ href s' = href s
  /\ storage s' = storage s
  /\ steps s' = steps s
  /\ lastStep s' = lastStep s
  /\ snd (fire protocol jobId r' (set_timers (scheduled s s') s'))
     = [status_url protocol jobId].
Proof.
  cbv zeta. rewrite scheduled_pollStatus.
  destruct payload; repeat split; reflexivity.
Qed.

End Polling.

(** ** The stage display and the terminal log *)

Section Display.

Import Process.






End Display.

(** ** The Generate button *)

Section Submission.

Import Create.

Lemma run_app (a b : list effect) (s : state) :
  run (a ++ b) s = run b (run a s).
Proof. unfold run. apply foldl_app. Qed.

Lemma finish_no_fetch (p : pending) (r : Net.result) :
  List.filter is_fetch (click_finish p r) = [].
Proof.
  unfold click_finish, on_error.
  destruct r as [m | code [m | data]]; try reflexivity;
    destruct (Net.ok code); try reflexivity.
  - destruct (JS.get data "job_id") as [j|]; [|reflexivity].
    destruct (JS.throws j); [reflexivity|].
    destruct (p_file p); reflexivity.
  - destruct (JS.get data "detail") as [d|]; [|reflexivity].
    cbv zeta. destruct (JS.throws _); reflexivity.
Qed.

Lemma finish_failed (p : pending) (r : Net.result) :
  succeeded r = false ->
  exists m, click_finish p r = on_error m.
Proof.
  unfold succeeded, click_finish.
  destruct r as [m | code [m | data]]; try (by eexists);
    destruct (Net.ok code); try (by eexists).
  - destruct (JS.get data "job_id") as [j|]; [|by eexists].
    cbn [andb]. destruct (JS.throws j); [by eexists | discriminate].
  - destruct (JS.get data "detail") as [d|]; [|by eexists].
    cbv zeta. destruct (JS.throws _); by eexists.
Qed.

Lemma finish_succeeded (p : pending) (r : Net.result) :
  succeeded r = true ->
  exists code data jobId,
    r = Net.Response code (Net.Json data)
    /\ Net.ok code = true
    /\ JS.get data "job_id" = Some jobId
    /\ JS.throws jobId = false
    /\ click_finish p r
       = [SetItem "graniteJobId" (JS.to_string jobId);
          SetItem "currentProjectTopic" (project_topic p)]
         ++ (match p_file p with
             | Some f => [SetItem "graniteFileName" (name f)]
             | None => []
             end)
         ++ [Navigate "process.html"].
Proof.
  unfold succeeded, click_finish.
  destruct r as [m | code [m | data]]; try discriminate.
  destruct (Net.ok code) eqn:Hok; [|discriminate].
  destruct (JS.get data "job_id") as [j|] eqn:Hj; [|discriminate].
  cbn [andb]. destruct (JS.throws j) eqn:Hth; [discriminate|].
  intros _. exists code, data, j. rewrite Hok. repeat split; done.
Qed.

Lemma start_valid (protocol : string) (i : inputs) :
  chosen_file i <> None \/ description i <> "" ->
  click_start protocol i
  = ([SetDisabled true; SetInnerHTML loading_html;
      Fetch (generate_request protocol (chosen_file i) (description i))],
     Some {| p_description := description i; p_file := chosen_file i |}).
Proof.
  intros H. unfold click_start.
  destruct (chosen_file i); [reflexivity|].
  destruct (String.eqb_spec (description i) ""); [|reflexivity].
  destruct H; done.
Qed.

Lemma click_valid (protocol : string) (i : inputs)
    (respond : request -> Net.result) :
  chosen_file i <> None \/ description i <> "" ->
  click protocol i respond
  = [SetDisabled true; SetInnerHTML loading_html;
     Fetch (generate_request protocol (chosen_file i) (description i))]
    ++ click_finish
         {| p_description := description i; p_file := chosen_file i |}
         (respond (generate_request protocol (chosen_file i) (description i))).
Proof.
  intros H. unfold click. by rewrite (start_valid protocol i H).
Qed.

(** C8.  A click that passes validation disables the button before the
    request goes out: whenever the handler reaches a [fetch], the button
    is disabled, and that [fetch] is the one submission request of the
    click.  The button is enabled again exactly when the attempt fails; on
    success the handler ends by leaving for the process page with the
    button still disabled. *)
Theorem generate_button_guard (protocol : string) (i : inputs)
    (respond : request -> Net.result) (s0 : state) :
  chosen_file i <> None \/ description i <> "" ->
  let req := generate_request protocol (chosen_file i) (description i) in
  let effs := click protocol i respond in
  let s1 := run effs s0 in
  (forall pre r post,
      effs = pre ++ Fetch r :: post ->
      btn_disabled (run pre s0) = true /\ r = req)
  /\ List.filter is_fetch effs = [Fetch req]
  /\ sent s1 = sent s0 ++ [req]
  /\ (In (SetDisabled false) effs <-> succeeded (respond req) = false)
  /\ (succeeded (respond req) = true ->
      btn_disabled s1 = true /\ href s1 = "process.html"
      /\ last effs = Some (Navigate "process.html"))
  /\ (succeeded (respond req) = false ->
      btn_disabled s1 = false /\ href s1 = href s0
      /\ storage s1 = storage s0).
Proof.
  intros Hvalid req effs s1.
  pose proof (click_valid protocol i respond Hvalid) as Hclick.
  fold req in Hclick. fold effs in Hclick.
  set (p := {| p_description := description i; p_file := chosen_file i |})
    in Hclick.
  pose proof (finish_no_fetch p (respond req)) as Hnf.
  split; [|split; [|split; [|split; [|split]]]].
  - intros pre r post Hsplit. rewrite Hclick in Hsplit.
    destruct pre as [|e0 [|e1 [|e2 pre]]]; cbn in Hsplit.
    + discriminate Hsplit.
    + discriminate Hsplit.
    + injection Hsplit as <- <- <- _. by split.
    + injection Hsplit as _ _ _ Hfin. rewrite Hfin in Hnf.
      rewrite List.filter_app in Hnf. apply app_eq_nil in Hnf as [_ Hnf].
      discriminate Hnf.
  - rewrite Hclick, List.filter_app, Hnf. reflexivity.
  - unfold s1. rewrite Hclick, run_app.
    destruct (succeeded (respond req)) eqn:Hs.
    + destruct (finish_succeeded p _ Hs)
        as (c & d & j & _ & _ & _ & _ & ->).
      by destruct (p_file p).
    + destruct (finish_failed p _ Hs) as (m & ->). reflexivity.
  - rewrite Hclick. split.
    + intros Hin. destruct (succeeded (respond req)) eqn:Hs; [|done].
      destruct (finish_succeeded p _ Hs)
        as (c & d & j & _ & _ & _ & _ & Hfin).
      rewrite Hfin in Hin.
      destruct (p_file p); cbn in Hin;
        repeat (destruct Hin as [Hin | Hin]; [discriminate Hin|]);
        destruct Hin.
    + intros Hs. destruct (finish_failed p _ Hs) as (m & ->).
      cbn. auto 10.
  - intros Hs. unfold s1. rewrite Hclick.
    destruct (finish_succeeded p _ Hs) as (c & d & j & _ & _ & _ & _ & ->).
    by destruct (p_file p).
  - intros Hs. unfold s1. rewrite Hclick.
    destruct (finish_failed p _ Hs) as (m & ->). by repeat split.
Qed.

Lemma generate_button_guard_witness :
  List.filter is_fetch
    (click "http:" {| topic_value := Some " photosynthesis "; files := None |}
       (fun _ => Net.Response 200
                   (Net.Json (JS.Obj [("job_id", JS.Str "job-42")]))))
  = [Fetch (generate_request "http:" None "photosynthesis")].
Proof.
  refine (proj1 (proj2
    (generate_button_guard "http:"
       {| topic_value := Some " photosynthesis "; files := None |}
       (fun _ => Net.Response 200
                   (Net.Json (JS.Obj [("job_id", JS.Str "job-42")])))
       {| btn_disabled := false; btn_html := ""; storage := ∅; href := "";
          alerts := []; sent := [] |}
       _))).
  right. vm_compute. discriminate.
Defined.

(** C2.  A submission with no file and a description that is empty once
    trimmed is refused by the client: the handler only raises its alert,
    sends nothing and changes neither the button, the storage nor the
    location.  The endpoint, for its part, answers a request that has
    neither field (such as the form this submission would have made) with
    HTTP 400 and leaves the store as it was, so no job is created. *)
Theorem empty_submission_rejected (protocol : string) (i : inputs)
    (respond : request -> Net.result) (s0 : state) :
  chosen_file i = None ->
  description i = "" ->
  let s1 := run (click protocol i respond) s0 in
  click protocol i respond
  = [Alert "Please upload a PDF document or enter a topic description."]
  /\ sent s1 = sent s0
  /\ storage s1 = storage s0 /\ href s1 = href s0
  /\ btn_disabled s1 = btn_disabled s0
  /\ forall (payload artifact_ref : Type)
       (fresh : gmap string (Server.job payload artifact_ref) -> string)
       (ingest : option file -> option string -> payload)
       (no_input : string) (now : N)
       (st : Server.store payload artifact_ref),
       Server.submit payload artifact_ref fresh ingest no_input now
         (Server.of_form (formData (chosen_file i) (description i))) st
       = (Server.Rejected 400 no_input, st)
       /\ forall req : Server.submission file,
            Server.sub_file _ req = None ->
            Server.sub_description _ req = None ->
            Server.submit payload artifact_ref fresh ingest no_input now req st
            = (Server.Rejected 400 no_input, st).
Proof.
  intros Hf Hd s1.
  assert (Hclick : click protocol i respond
                   = [Alert "Please upload a PDF document or enter a topic description."]).
  { unfold click, click_start. by rewrite Hf, Hd. }
  unfold s1. rewrite Hclick. repeat split; try reflexivity.
  - by rewrite Hf, Hd.
  - intros req H1 H2. unfold Server.submit. by rewrite H1, H2.
Qed.

Lemma empty_submission_rejected_witness :
  click "http:"
    {| topic_value := Some (" " +:+ JS.utf8 12288 +:+ JS.utf8 160);
       files := Some [] |}
    (fun _ => Net.NetworkError "")
  = [Alert "Please upload a PDF document or enter a topic description."].
Proof.
  refine (proj1
    (empty_submission_rejected "http:"
       {| topic_value := Some (" " +:+ JS.utf8 12288 +:+ JS.utf8 160);
          files := Some [] |}
       (fun _ => Net.NetworkError "")
       {| btn_disabled := false; btn_html := ""; storage := ∅; href := "";
          alerts := []; sent := [] |}
       _ _)); reflexivity.
Defined.

Lemma run_urls (protocol jobId : string) (answers : list Net.result)
    (s : Process.state) :
  Forall (fun u => u = Process.status_url protocol jobId)
         (snd (Process.run protocol jobId answers s)).
Proof.
  revert s. induction answers as [|r more IH]; intros s; cbn [Process.run].
  - constructor.
  - destruct (Process.fire protocol jobId r s) as [s1 urls1] eqn:Hfire.
    specialize (IH s1).
    destruct (Process.run protocol jobId more s1) as [s2 urls2].
    cbn [snd] in *. apply Forall_app. split; [|exact IH].
    unfold Process.fire in Hfire.
    destruct (Process.timers s) as [|[delay [|]] rest];
      injection Hfire as _ <-; repeat constructor.
Qed.

Lemma session_urls (protocol jobId : string) (el : option string)
    (answers : list Net.result) (s : Process.state) :
  Process.storage s !! "graniteJobId" = Some jobId ->
  Forall (fun u => u = Process.status_url protocol jobId)
         (snd (Process.session protocol el answers s)).
Proof.
  intros Hid. unfold Process.session, Process.start. rewrite Hid.
  destruct (String.eqb jobId ""); [constructor | apply run_urls].
Qed.

Lemma session_first_url (protocol jobId : string) (el : option string)
    (r : Net.result) (answers : list Net.result) (s : Process.state) :
  Process.storage s !! "graniteJobId" = Some jobId ->
  jobId <> "" ->
  Process.timers s = [] ->
  head (snd (Process.session protocol el (r :: answers) s))
  = Some (Process.status_url protocol jobId).
Proof.
  intros Hid Hne Ht. unfold Process.session, Process.start. rewrite Hid.
  destruct (String.eqb_spec jobId ""); [done|].
  cbn [Process.run]. unfold Process.fire.
  cbn [Process.timers Process.setTimeout Process.addTerminalLine
       Process.set_terminal].
  rewrite Ht. cbn [app].
  destruct (Process.run _ _ _ _). reflexivity.
Qed.

(** C6.  The request of a valid submission is a POST to [/api/generate]
    whose form has a [file] field exactly when a file was chosen and a
    [description] field exactly when the trimmed description is not
    empty, at least one of the two.  When the answer is a 2xx response
    whose body carries a [job_id] string, the client stores it under
    [graniteJobId] and leaves for the process page; the process page,
    loaded with that storage, requests [/api/status/] followed by the
    stored id, first and every time, and the video and download URLs of
    the output page are [/api/video/] followed by that id. *)
Theorem submission_carries_job_id (protocol : string) (i : inputs)
    (respond : request -> Net.result) (s0 : state) :
  chosen_file i <> None \/ description i <> "" ->
  let base :=
    if String.eqb protocol "file:" then "http://localhost:8000" else "" in
  let req := generate_request protocol (chosen_file i) (description i) in
  (url req = base +:+ "/api/generate" /\ method req = "POST")
  /\ form req <> []
  /\ (forall f, chosen_file i = Some f <-> In ("file", FormFile f) (form req))
  /\ (forall d, description i = d /\ d <> ""
                <-> In ("description", FormText d) (form req))
  /\ forall code data jobId,
       respond req = Net.Response code (Net.Json data) ->
       Net.ok code = true ->
       JS.get data "job_id" = Some (JS.Str jobId) ->
       let s1 := run (click protocol i respond) s0 in
       storage s1 !! "graniteJobId" = Some jobId
       /\ href s1 = "process.html"
       /\ (forall page el answers,
             Process.storage page = storage s1 ->
             Forall (fun u => u = base +:+ "/api/status/" +:+ jobId)
                    (snd (Process.session protocol el answers page)))
       /\ (forall page el r answers,
             Process.storage page = storage s1 ->
             jobId <> "" ->
             Process.timers page = [] ->
             head (snd (Process.session protocol el (r :: answers) page))
             = Some (base +:+ "/api/status/" +:+ jobId))
       /\ (forall d,
             jobId <> "" ->
             let d' := Output.load protocol (storage s1) d in
             (is_Some (Output.video_src d) ->
              Output.video_request d'
              = Some (base +:+ "/api/video/" +:+ jobId))
             /\ (is_Some (Output.download_btn d) ->
                 Output.download_btn d'
                 = Some (Some (base +:+ "/api/video/" +:+ jobId)))).
Proof.
  intros Hvalid base req.
  split; [done|]. split; [|split; [|split]].
  1-3: unfold req, generate_request, formData; cbn [url method form].
  - destruct (chosen_file i); [done|].
    destruct (String.eqb_spec (description i) ""); [|done].
    destruct Hvalid; done.
  - intros f. split.
    + intros ->. by left.
    + destruct (chosen_file i) as [g|];
        destruct (String.eqb (description i) ""); cbn;
        intros H; repeat (destruct H as [H | H]; [by inversion H|]);
        destruct H.
  - intros d. split.
    + intros [<- Hd]. apply in_or_app. right.
      destruct (String.eqb_spec (description i) ""); [done | by left].
    + intros H. apply in_app_or in H as [H | H].
      * destruct (chosen_file i); [|destruct H].
        destruct H as [H | []]. inversion H.
      * destruct (String.eqb_spec (description i) ""); [destruct H|].
        destruct H as [H | []]. inversion H. by subst.
  - intros code data jobId Hresp Hok Hid.
    set (s1 := run (click protocol i respond) s0).
    assert (Hst : storage s1 !! "graniteJobId" = Some jobId
                  /\ href s1 = "process.html").
    { unfold s1. rewrite (click_valid protocol i respond Hvalid), run_app.
      fold req. rewrite Hresp. unfold click_finish. rewrite Hok, Hid.
      cbn [p_file JS.to_string JS.throws].
      destruct (chosen_file i); cbn; split; try reflexivity;
        rewrite ?lookup_insert_ne by done; apply lookup_insert_eq. }
    destruct Hst as [Hst Hhref].
    split; [exact Hst|]. split; [exact Hhref|]. split; [|split].
    + intros page el answers Hpage.
      apply (session_urls protocol jobId). by rewrite Hpage.
    + intros page el r answers Hpage Hne Ht.
      apply (session_first_url protocol jobId); [by rewrite Hpage|done|done].
    + intros d Hne. set (d' := Output.load protocol (storage s1) d).
      assert (Hstored : Output.stored (storage s1) "graniteJobId" = Some jobId).
      { unfold Output.stored. rewrite Hst.
        destruct (String.eqb_spec jobId ""); done. }
      unfold d', Output.video_request, Output.load.
      cbn [Output.video_src Output.download_btn]. rewrite Hstored.
      split; intros [x ->]; reflexivity.
Qed.

Lemma submission_carries_job_id_witness :
  storage
    (run (click "http:" {| topic_value := Some " photosynthesis "; files := None |}
            (fun _ => Net.Response 200
                        (Net.Json (JS.Obj [("job_id", JS.Str "job-42")]))))
         {| btn_disabled := false; btn_html := ""; storage := ∅; href := "";
            alerts := []; sent := [] |})
  !! "graniteJobId" = Some "job-42".
Proof.
  refine (proj1 (proj2 (proj2 (proj2 (proj2
    (submission_carries_job_id "http:"
       {| topic_value := Some " photosynthesis "; files := None |}
       (fun _ => Net.Response 200
                   (Net.Json (JS.Obj [("job_id", JS.Str "job-42")])))
       {| btn_disabled := false; btn_html := ""; storage := ∅; href := "";
          alerts := []; sent := [] |}
       _)))) 200%Z (JS.Obj [("job_id", JS.Str "job-42")]) "job-42"
       eq_refl eq_refl eq_refl)).
  right. vm_compute. discriminate.
Defined.

End Submission.

(** ** The stage order *)

Section Stages.

Import Pipeline.

Lemma position_drop (i : nat) (st : stage) (rest : list stage) :
  drop i stages = st :: rest -> position st = i /\ i < length stages.
Proof.
  do 6 (destruct i as [|i];
        [cbn; intros H; injection H as <- _; split; [reflexivity | lia]|]).
  cbn. rewrite drop_nil. discriminate.
Qed.

Lemma forward_adjacent (l : list nat) (n : nat) :
  forward n l ->
  forall k a b, (n :: l) !! k = Some a -> (n :: l) !! S k = Some b ->
                a <= b <= S a /\ b <= length stages.
Proof.
  revert n. induction l as [|x l IH]; intros n Hf k a b Ha Hb.
  - destruct k; discriminate Hb.
  - destruct Hf as (Hx & Hmax & Hf). destruct k as [|k].
    + cbn in Ha, Hb. injection Ha as <-. injection Hb as <-. by split.
    + cbn in Ha. exact (IH x Hf k a b Ha Hb).
Qed.

Section Orchestrator.

Variables payload artifact_ref : Type.
Variable handler :
  stage -> payload -> Server.job payload artifact_ref -> payload + string.
Variable describe : stage -> string.
Variable save : string -> payload -> artifact_ref.

Abbreviation job := (Server.job payload artifact_ref).
Abbreviation stage_index :=
  (fun j : job => index (Server.currentStage payload artifact_ref j)).
Abbreviation run_stages :=
  (Server.run_stages payload artifact_ref handler describe save).

Lemma run_stages_forward (rest : list stage) :
  forall (i : nat) (prev : payload) (j : job),
    drop i stages = rest ->
    i <= stage_index j <= S i ->
    stage_index j <= length stages ->
    forward (stage_index j) (stage_index <$> run_stages i rest prev j).
Proof.
  induction rest as [|st rest IH]; intros i prev j Hdrop Hj Hmax.
  - cbn [Server.run_stages fmap list_fmap forward Server.currentStage
          Server.complete].
    split; [lia|]. by split.
  - destruct (position_drop i st rest Hdrop) as [Hpos Hlt].
    cbn [Server.run_stages fmap list_fmap].
    cbn [forward Server.currentStage Server.enter_stage index].
    rewrite Hpos. split; [lia|]. split; [lia|].
    destruct (handler st prev
                (Server.enter_stage payload artifact_ref describe i st j))
      as [out | e].
    + specialize (IH (S i) out
                     (Server.enter_stage payload artifact_ref describe i st j)).
      cbn [Server.currentStage Server.enter_stage index] in IH.
      rewrite Hpos in IH. apply IH; [|lia|lia].
      replace (S i) with (i + 1) by lia.
      rewrite <- drop_drop, Hdrop. reflexivity.
    + cbn [fmap list_fmap forward Server.currentStage Server.fail
           Server.enter_stage index].
      rewrite Hpos. split; [lia|]. split; [lia | done].
Qed.

(** C7.  Over the whole lifetime of a job, from its creation on and
    whatever the stage handlers return, the index of [currentStage] in the
    stage order starts at the sentinel, never decreases from one record to
    the next (hence between any two records), never moves by more than one
    stage at a time, and never exceeds the length of the pipeline. *)
Theorem stage_index_monotone (i : string) (inp : payload) (now : N) :
  let t := Server.lifetime payload artifact_ref handler describe save i inp now in
  (stage_index <$> t) !! 0 = Some 0
  /\ (forall j, In j t -> stage_index j <= length stages)
  /\ (forall k a b,
        t !! k = Some a -> t !! S k = Some b ->
        stage_index a <= stage_index b <= S (stage_index a))
  /\ (forall k l a b,
        k <= l -> t !! k = Some a -> t !! l = Some b ->
        stage_index a <= stage_index b).
Proof.
  intros t.
  assert (Hfwd : forward 0 (stage_index <$> tail t)).
  { unfold t, Server.lifetime, Server.execute. cbn [tail fmap list_fmap].
    cbn [forward].
    assert (Hb : stage_index
                   (Server.begin payload artifact_ref
                      (Server.create payload artifact_ref i inp now)) = 1)
      by reflexivity.
    cbv beta in Hb.
    split; [rewrite Hb; lia|]. split; [rewrite Hb; cbn; lia|].
    apply (run_stages_forward stages 0); [reflexivity | |];
      rewrite Hb; cbn; lia. }
  assert (Hidx : stage_index <$> t = 0 :: (stage_index <$> tail t))
    by reflexivity.
  assert (Hadj : forall k a b,
             t !! k = Some a -> t !! S k = Some b ->
             stage_index a <= stage_index b <= S (stage_index a)
             /\ stage_index b <= length stages).
  { intros k a b Ha Hb.
    apply (forward_adjacent _ _ Hfwd k); rewrite <- Hidx, list_lookup_fmap.
    - by rewrite Ha.
    - by rewrite Hb. }
  split; [reflexivity|]. split; [|split].
  - intros j Hj. apply list_elem_of_In, list_elem_of_lookup in Hj as [k Hk].
    destruct k as [|k].
    + injection Hk as <-. cbn. lia.
    + destruct (lookup_lt_is_Some_2 t k) as [a Ha].
      { apply lookup_lt_Some in Hk. lia. }
      by destruct (Hadj k a j Ha Hk).
  - intros k a b Ha Hb. by destruct (Hadj k a b Ha Hb).
  - intros k l a b Hkl. revert b. induction Hkl as [|l Hkl IH]; intros b Ha Hb.
    + rewrite Ha in Hb. injection Hb as <-. lia.
    + destruct (lookup_lt_is_Some_2 t l) as [c Hc].
      { apply lookup_lt_Some in Hb. lia. }
      specialize (IH c Ha Hc). destruct (Hadj l c b Hc Hb). lia.
Qed.

End Orchestrator.

Lemma stage_index_monotone_witness :
  exists a b,
    Server.lifetime string string
      (fun st p _ => match st with
                     | Narration => inr "speech service down"
                     | _ => inl p
                     end)
      stage_name (fun i _ => i) "job-42" "photosynthesis" 0%N !! 4 = Some a
    /\ Server.lifetime string string
         (fun st p _ => match st with
                        | Narration => inr "speech service down"
                        | _ => inl p
                        end)
         stage_name (fun i _ => i) "job-42" "photosynthesis" 0%N !! 5 = Some b
    /\ index (Server.currentStage _ _ a)
       <= index (Server.currentStage _ _ b)
       <= S (index (Server.currentStage _ _ a)).
Proof.
  eexists. eexists.
  split; [reflexivity|]. split; [reflexivity|].
  apply (proj1 (proj2 (proj2
           (stage_index_monotone string string
              (fun st p _ => match st with
                             | Narration => inr "speech service down"
                             | _ => inl p
                             end)
              stage_name (fun i _ => i) "job-42" "photosynthesis" 0%N))) 4);
    reflexivity.
Defined.

(** C5.  The pipeline has exactly six stages, in the order extraction,
    planning, animation, narration, composition, quality, and a job holds
    the sentinel [queued] before it runs; the back end lists as many
    agents.  The stage list of the client is the list of these six names
    in this order; the sentinel is not in it; a [current_step] value is
    shown as a numbered stage only if it is the name of a stage, with the
    number of that stage, and every stage name is shown that way. *)
Theorem six_stages_in_order :
  length stages = 6
  /\ stage_name <$> stages
     = ["extraction"; "planning"; "animation";
        "narration"; "composition"; "quality"]
  /\ Process.stepNames = stage_name <$> stages
  /\ length agents = length stages
  /\ (forall (payload artifact_ref : Type) i (inp : payload) now,
        Server.currentStage _ _ (Server.create payload artifact_ref i inp now)
        = Queued)
  /\ current_step Queued = "queued"
  /\ JS.indexOf Process.stepNames (JS.Str "queued") = None
  /\ (forall v i,
        JS.indexOf Process.stepNames v = Some i ->
        exists st,
          stages !! i = Some st /\ v = JS.Str (stage_name st)
          /\ index (At st) = S i
          /\ Process.stage_text v
             = "Stage " +:+ JS.padStart 2 "0" (pretty (S i)))
  /\ (forall st,
        JS.indexOf Process.stepNames (JS.Str (stage_name st))
        = Some (position st)).
Proof.
  repeat split; try reflexivity.
  - intros v i Hi. destruct (indexOf_Some _ _ _ Hi) as (x & -> & Hx).
    change Process.stepNames with (stage_name <$> stages) in Hx.
    rewrite list_lookup_fmap in Hx.
    destruct (stages !! i) as [st|] eqn:Hst; [|discriminate].
    injection Hx as <-. exists st. repeat split.
    + destruct (position_drop i st (drop (S i) stages)) as [Hp _];
        [by apply drop_S|].
      cbn [index]. by rewrite Hp.
    + unfold Process.stage_text. by rewrite Hi.
  - intros st. by destruct st.
Qed.

Lemma six_stages_in_order_witness :
  exists st,
    stages !! 1 = Some st /\ JS.Str "planning" = JS.Str (stage_name st)
    /\ index (At st) = 2
    /\ Process.stage_text (JS.Str "planning")
       = "Stage " +:+ JS.padStart 2 "0" (pretty 2).
Proof.
  apply (proj1 (proj2 (proj2 (proj2 (proj2 (proj2 (proj2 (proj2
           six_stages_in_order))))))) (JS.Str "planning") 1).
  reflexivity.
Defined.

End Stages.

(** * Further properties of the client script *)

(** ** The step rows *)

Section Rows.

Import Process.

Lemma stepIds_NoDup : NoDup stepIds.
Proof. apply (bool_decide_unpack _). vm_compute. exact I. Qed.

Lemma update_step_lookup (k : nat) (m : gmap string step_el) (j : nat)
    (id' id : string) :
  update_step k m (j, id') !! id
  = if decide (id = id') then Session.row_display k j <$> m !! id
    else m !! id.
Proof.
  unfold update_step, Session.row_display.
  destruct (decide (id = id')) as [-> | Hne].
  - destruct (m !! id') as [el|] eqn:Hel; [|by rewrite Hel].
    destruct (Nat.ltb j k); [by rewrite lookup_insert_eq|].
    destruct (Nat.eqb j k); [by rewrite lookup_insert_eq | by rewrite Hel].
  - destruct (m !! id') as [el|]; [|done].
    destruct (Nat.ltb j k); [by rewrite lookup_insert_ne|].
    destruct (Nat.eqb j k); [by rewrite lookup_insert_ne | done].
Qed.

Lemma fold_update_notin (k : nat) (l : list (nat * string))
    (m : gmap string step_el) (id : string) :
  id ∉ l.*2 -> foldl (update_step k) m l !! id = m !! id.
Proof.
  revert m. induction l as [|[j id'] l IH]; intros m Hn; [done|].
  cbn [foldl]. rewrite IH.
  - rewrite update_step_lookup. destruct (decide (id = id')); [|done].
    subst. destruct Hn. cbn. by left.
  - intros Hin. apply Hn. cbn. by right.
Qed.

Lemma fold_update_in (k : nat) (l : list (nat * string))
    (m : gmap string step_el) (j : nat) (id : string) :
  NoDup l.*2 -> (j, id) ∈ l ->
  foldl (update_step k) m l !! id = Session.row_display k j <$> m !! id.
Proof.
  revert m. induction l as [|[j' id'] l IH]; intros m Hnd Hin.
  - by apply elem_of_nil in Hin.
  - cbn in Hnd. apply NoDup_cons in Hnd as [Hni Hnd].
    cbn [foldl]. apply elem_of_cons in Hin as [Heq | Hin].
    + injection Heq as <- <-. rewrite fold_update_notin by done.
      rewrite update_step_lookup. by destruct (decide (id = id)).
    + assert (id ∈ l.*2) by (apply list_elem_of_fmap; by exists (j, id)).
      rewrite IH by done. rewrite update_step_lookup.
      destruct (decide (id = id')); [by subst | done].
Qed.

Lemma entries_NoDup :
  NoDup (imap (fun idx id : _ => (idx, id)) stepIds).*2.
Proof. apply (bool_decide_unpack _). vm_compute. exact I. Qed.

Lemma entries_snd : (imap (fun idx id : _ => (idx, id)) stepIds).*2 = stepIds.
Proof. reflexivity. Qed.

Lemma entries_elem (j : nat) (id : string) :
  stepIds !! j = Some id -> (j, id) ∈ imap (fun idx id : _ => (idx, id)) stepIds.
Proof.
  intros H. apply elem_of_lookup_imap. by exists j, id.
Qed.

Lemma steps_updatePipelineStep (s : state) (k : nat) (name : string) :
  stepNames !! k = Some name ->
  steps (updatePipelineStep (JS.Str name) s)
  = foldl (update_step k) (steps s)
      (imap (fun idx id : _ => (idx, id)) stepIds).
Proof.
  intros Hk. unfold updatePipelineStep.
  by rewrite (indexOf_stepNames k name Hk).
Qed.

(** X1.  For a stage name, [updatePipelineStep] gives every row before the
    stage the completed display, the row of the stage the active display,
    and leaves the rows after it, the rows that are missing, and every
    element that is not one of the six rows as they were. *)
Theorem updatePipelineStep_rows (s : state) (k : nat) (name : string) :
  stepNames !! k = Some name ->
  (forall j id,
      stepIds !! j = Some id ->
      steps (updatePipelineStep (JS.Str name) s) !! id
      = Session.row_display k j <$> steps s !! id)
  /\ (forall j id el,
        stepIds !! j = Some id -> k < j -> steps s !! id = Some el ->
        steps (updatePipelineStep (JS.Str name) s) !! id = Some el)
  /\ (forall id,
        ~ In id stepIds ->
        steps (updatePipelineStep (JS.Str name) s) !! id = steps s !! id).
Proof.
  intros Hk. rewrite (steps_updatePipelineStep s k name Hk).
  split; [|split].
  - intros j id Hj. apply fold_update_in; [apply entries_NoDup|].
    by apply entries_elem.
  - intros j id el Hj Hlt Hel.
    rewrite (fold_update_in k _ _ j id entries_NoDup (entries_elem j id Hj)).
    rewrite Hel. unfold Session.row_display. cbn [fmap option_fmap option_map].
    destruct (Nat.ltb_spec j k); [lia|].
    destruct (Nat.eqb_spec j k); [lia | done].
  - intros id Hn. apply fold_update_notin. rewrite entries_snd.
    by rewrite list_elem_of_In.
Qed.

Lemma updatePipelineStep_rows_witness :
  steps (updatePipelineStep (JS.Str "animation") Demo.page) !! "step-planning"
  = Session.row_display 2 1 <$> steps Demo.page !! "step-planning".
Proof.
  exact (proj1 (updatePipelineStep_rows Demo.page 2 "animation" eq_refl)
           1 "step-planning" eq_refl).
Defined.

Lemma mark_complete_lookup (m : gmap string step_el) (id' id : string) :
  mark_complete m id' !! id
  = if decide (id = id') then Session.finished_el <$> m !! id else m !! id.
Proof.
  unfold mark_complete, Session.finished_el.
  destruct (decide (id = id')) as [-> | Hne].
  - destruct (m !! id') as [el|] eqn:Hel; [|by rewrite Hel].
    by rewrite lookup_insert_eq.
  - destruct (m !! id') as [el|]; [|done]. by rewrite lookup_insert_ne.
Qed.

Lemma fold_mark_lookup (l : list string) (m : gmap string step_el)
    (id : string) :
  NoDup l ->
  foldl mark_complete m l !! id
  = if decide (id ∈ l) then Session.finished_el <$> m !! id else m !! id.
Proof.
  revert m. induction l as [|id' l IH]; intros m Hnd.
  - cbn. destruct (decide (id ∈ [])) as [H|]; [by apply elem_of_nil in H|done].
  - apply NoDup_cons in Hnd as [Hni Hnd]. cbn [foldl]. rewrite IH by done.
    rewrite mark_complete_lookup.
    destruct (decide (id = id')) as [-> | Hne].
    + destruct (decide (id' ∈ l)); [done|].
      destruct (decide (id' ∈ id' :: l)) as [|Hx]; [done|].
      destruct Hx. by left.
    + destruct (decide (id ∈ l)) as [Hin | Hn];
        destruct (decide (id ∈ id' :: l)) as [Hin' | Hn']; try done.
      * destruct Hn'. by right.
      * apply elem_of_cons in Hin' as [|]; done.
Qed.

(** X3.  When a poll learns that the job is completed and its three
    display fields can be written, every step row the page has ends the
    poll undimmed (neither [opacity-50] nor [grayscale] among its classes,
    opacity 1, no filter), whatever the row looked like and whatever step
    the response names; when one of the three writes throws, the rows stay
    as they were. *)
Theorem completed_marks_every_row (s : state) (code : Z) (data : JS.value)
    (id : string) (el : step_el) :
  Net.ok code = true ->
  JS.get data "status" = Some (JS.Str "completed") ->
  In id stepIds ->
  let s' := pollStatus (Net.Response code (Net.Json data)) s in
  (render_throws data s = false ->
   steps s' !! id = Some el ->
   ~ In "opacity-50" (classes el)
   /\ ~ In "grayscale" (classes el)
   /\ style_opacity el = "1"
   /\ style_filter el = "none")
  /\ (render_throws data s = true -> steps s' = steps s).
Proof.
  intros Hok Hst Hin s'.
  pose proof (pollStatus_json code data _ s Hok Hst) as H.
  split; intros Hrt; rewrite Hrt in H; destruct H as (s1 & Hr & H);
    unfold s'; rewrite H; clear H.
  - cbv zeta. cbn [JS.strict_eq String.eqb Ascii.eqb Bool.eqb].
    cbn [steps on_completed setTimeout set_steps addTerminalLine
         set_terminal].
    rewrite (fold_mark_lookup _ _ _ stepIds_NoDup).
    destruct (decide (id ∈ stepIds)) as [_ | Hn];
      [|destruct Hn; by apply list_elem_of_In].
    destruct (steps _ !! id) as [el0|]; [|discriminate].
    intros Hel. injection Hel as <-.
    unfold Session.finished_el, set_step_badge, undim.
    cbn [classes style_opacity style_filter step_badge].
    repeat split.
    + intros H. apply List.filter_In in H as [_ H]. discriminate H.
    + intros H. apply List.filter_In in H as [_ H]. discriminate H.
  - destruct (frame_after_render data _ s1 JS.conversion_message
                (or_intror Hr)) as (_ & _ & _ & _ & _ & Hs & _).
    unfold catch_block.
    cbn [steps setTimeout addTerminalLine set_terminal log_error].
    by rewrite Hs.
Qed.

Lemma completed_marks_every_row_witness :
  exists el,
    steps (pollStatus (Demo.ok200 "completed" "quality") Demo.page)
      !! "step-narration" = Some el
    /\ ~ In "opacity-50" (classes el).
Proof.
  eexists. split; [vm_compute; reflexivity|].
  refine (proj1 (proj1 (completed_marks_every_row Demo.page 200%Z
                   (Demo.answer "completed" "quality") "step-narration" _
                   eq_refl eq_refl
                   (or_intror (or_intror (or_intror (or_introl eq_refl)))))
                   eq_refl _)).
  vm_compute. reflexivity.
Defined.

End Rows.

(** ** What a poll never does to the page *)

Section Shape.

Import Process.

Lemma dom_update_step (k : nat) (m : gmap string step_el)
    (e : nat * string) :
  dom (update_step k m e) = dom m.
Proof.
  destruct e as [j id]. unfold update_step.
  destruct (m !! id) as [el|] eqn:Hel; [|done].
  apply (elem_of_dom_2 (D := gset string)) in Hel.
  apply singleton_subseteq_l in Hel.
  destruct (Nat.ltb j k); [by rewrite dom_insert_L, subseteq_union_1_L|].
  destruct (Nat.eqb j k); [by rewrite dom_insert_L, subseteq_union_1_L | done].
Qed.

Lemma dom_fold_update (k : nat) (l : list (nat * string))
    (m : gmap string step_el) :
  dom (foldl (update_step k) m l) = dom m.
Proof.
  revert m. induction l as [|e l IH]; intros m; [done|].
  cbn [foldl]. by rewrite IH, dom_update_step.
Qed.

Lemma dom_fold_mark (l : list string) (m : gmap string step_el) :
  dom (foldl mark_complete m l) = dom m.
Proof.
  revert m. induction l as [|id l IH]; intros m; [done|].
  cbn [foldl]. rewrite IH. unfold mark_complete.
  destruct (m !! id) as [el|] eqn:Hel; [|done].
  apply (elem_of_dom_2 (D := gset string)) in Hel.
  apply singleton_subseteq_l in Hel.
  by rewrite dom_insert_L, subseteq_union_1_L.
Qed.

Lemma shape_set_steps (m : gmap string step_el) (s : state) :
  dom m = dom (steps s) -> Session.shape (set_steps m s) = Session.shape s.
Proof. intros H. unfold Session.shape. cbn. by rewrite H. Qed.

Lemma shape_addTerminalLine (tg msg : string) (b : bool) (s : state) :
  Session.shape (addTerminalLine tg msg b s) = Session.shape s.
Proof. unfold Session.shape. cbn. by destruct (terminal s). Qed.

Lemma shape_set_lastStep (v : JS.value) (s : state) :
  Session.shape (set_lastStep v s) = Session.shape s.
Proof. reflexivity. Qed.

Lemma shape_setTimeout (cb : callback) (d : Z) (s : state) :
  Session.shape (setTimeout cb d s) = Session.shape s.
Proof. reflexivity. Qed.

Lemma shape_set_status_label (t : string) (s : state) :
  Session.shape (set_status_label t s) = Session.shape s.
Proof. unfold Session.shape. cbn. by destruct (status_label s). Qed.

Lemma shape_set_stage_badge (f : badge -> badge) (s : state) :
  Session.shape (set_stage_badge f s) = Session.shape s.
Proof. unfold Session.shape. cbn. by destruct (stage_badge s). Qed.

Lemma shape_set_progress (w : string) (s : state) :
  Session.shape (set_progress w s) = Session.shape s.
Proof.
  unfold Session.shape. cbn.
  by destruct (top_bar s), (frame_bar s), (progress_label s).
Qed.

Lemma shape_updatePipelineStep (v : JS.value) (s : state) :
  Session.shape (updatePipelineStep v s) = Session.shape s.
Proof.
  unfold updatePipelineStep. destruct (JS.indexOf stepNames v); [|done].
  apply shape_set_steps, dom_fold_update.
Qed.

Lemma shape_visualize (v : JS.value) (s : state) :
  Session.shape (visualize v s) = Session.shape s.
Proof.
  unfold visualize.
  destruct (negb (JS.strict_eq v (lastStep s))
            && negb (JS.strict_eq v (JS.Str "queued"))); [|done].
  rewrite shape_set_lastStep.
  destruct (JS.truthy (lastStep s)
            && negb (JS.strict_eq (lastStep s) (JS.Str "queued")));
    [destruct (JS.indexOf stepNames (lastStep s))|];
    destruct (JS.indexOf stepNames v);
    rewrite ?shape_addTerminalLine; apply shape_updatePipelineStep.
Qed.

Lemma shape_render (data : JS.value) (s : state) :
  Session.shape (after (render data s)) = Session.shape s.
Proof.
  unfold render.
  destruct (shows_progress s && JS.throws _); [done|].
  destruct (bool_decide _ && stage_throws _);
    [by rewrite <- (shape_set_progress
                      (JS.to_string (prop data "progress") +:+ "%") s)|].
  destruct (bool_decide _ && JS.throws _); cbn [after];
    by rewrite ?shape_set_status_label, shape_set_stage_badge,
      shape_set_progress.
Qed.

Lemma shape_after_render (data : JS.value) (s s1 : state) (m : string) :
  render data s = inl s1 \/ render data s = inr (s1, m) ->
  Session.shape s1 = Session.shape s.
Proof.
  intros H. pose proof (shape_render data s) as F.
  by destruct H as [H | H]; rewrite H in F.
Qed.

Lemma updatePipelineStep_outside (v : JS.value) (s : state) (id : string) :
  ~ In id stepIds ->
  steps (updatePipelineStep v s) !! id = steps s !! id.
Proof.
  intros Hn. unfold updatePipelineStep.
  destruct (JS.indexOf stepNames v); [|done].
  change (steps (set_steps ?m s)) with m.
  apply fold_update_notin. rewrite entries_snd. by rewrite list_elem_of_In.
Qed.

Lemma visualize_outside (v : JS.value) (s : state) (id : string) :
  ~ In id stepIds -> steps (visualize v s) !! id = steps s !! id.
Proof.
  intros Hn. unfold visualize.
  destruct (negb (JS.strict_eq v (lastStep s))
            && negb (JS.strict_eq v (JS.Str "queued"))); [|done].
  destruct (JS.truthy (lastStep s)
            && negb (JS.strict_eq (lastStep s) (JS.Str "queued")));
    [destruct (JS.indexOf stepNames (lastStep s))|];
    destruct (JS.indexOf stepNames v);
    cbn [steps set_lastStep addTerminalLine set_terminal];
    by apply updatePipelineStep_outside.
Qed.

(** X4.  A poll whose log lines carry no markup of their own never adds
    or removes an element: after [pollStatus], whatever the answer, the
    page has the same step rows and the same progress bars, label, badge
    and log as before; and it never touches a row other than the six step
    rows.  The lines of the stages, of a 404 and of the completion are
    such lines. *)
Theorem pollStatus_keeps_shape (r : Net.result) (s : state) :
  forallb inert (appended s (pollStatus r s)) = true ->
  (Session.shape (pollStatus r s) = Session.shape s
   /\ forall id, ~ In id stepIds ->
                 steps (pollStatus r s) !! id = steps s !! id)
  /\ inert not_found_line = true
  /\ inert done_line = true
  /\ forall i, inert (stage_line i) = true /\ inert (completion_line i) = true.
Proof.
  intros _. split.
  2:{ split; [reflexivity|]. split; [reflexivity|].
      intros i. unfold inert, stage_line, completion_line, label.
      cbn [tag message].
      do 6 (destruct i as [|i]; [by vm_compute|]). by vm_compute. }
  destruct r as [m | code [m | data]].
  { unfold pollStatus, try_block, catch_block.
    split; [|done]. by rewrite shape_setTimeout, shape_addTerminalLine. }
  { unfold pollStatus, try_block, catch_block.
    destruct (Net.ok code); [|destruct (Z.eqb code 404)];
      (split; [|done]); by rewrite shape_setTimeout, shape_addTerminalLine. }
  destruct (Net.ok code) eqn:Hok.
  2:{ unfold pollStatus, try_block, catch_block. rewrite Hok.
      destruct (Z.eqb code 404); (split; [|done]);
        by rewrite shape_setTimeout, shape_addTerminalLine. }
  destruct (JS.get data "status") as [st|] eqn:Hst.
  2:{ unfold pollStatus, try_block, on_data, catch_block. rewrite Hok, Hst.
      split; [|done]. by rewrite shape_setTimeout, shape_addTerminalLine. }
  pose proof (pollStatus_json code data st s Hok Hst) as H.
  destruct (render_throws data s); destruct H as (s1 & Hr & ->).
  { pose proof (shape_after_render data _ s1 JS.conversion_message
                  (or_intror Hr)) as Hsh.
    destruct (frame_after_render data _ s1 JS.conversion_message
                (or_intror Hr)) as (_ & _ & _ & _ & _ & Hs & _).
    unfold catch_block. split.
    - by rewrite shape_setTimeout, shape_addTerminalLine.
    - intros id _.
      cbn [steps setTimeout addTerminalLine set_terminal log_error].
      by rewrite Hs. }
  pose proof (shape_after_render data _ s1 "" (or_introl Hr)) as Hsh.
  destruct (frame_after_render data _ s1 "" (or_introl Hr))
    as (_ & _ & _ & _ & _ & Hs & _).
  cbv zeta.
  set (s2 := visualize (prop data "current_step") s1).
  assert (Hs2 : Session.shape s2 = Session.shape s).
  { unfold s2. by rewrite shape_visualize, Hsh. }
  assert (Ho2 : forall id, ~ In id stepIds -> steps s2 !! id = steps s !! id).
  { intros id Hn. unfold s2. rewrite visualize_outside by done.
    by rewrite Hs. }
  destruct (JS.strict_eq st (JS.Str "completed"));
    [|destruct (JS.strict_eq st (JS.Str "failed"))].
  + unfold on_completed. split.
    * rewrite shape_setTimeout, shape_set_steps, shape_addTerminalLine;
        [done|]. by rewrite dom_fold_mark.
    * intros id Hn.
      cbn [steps setTimeout set_steps addTerminalLine set_terminal].
      rewrite (fold_mark_lookup _ _ _ stepIds_NoDup).
      destruct (decide (id ∈ stepIds)) as [Hin|]; [|by apply Ho2].
      destruct Hn. by apply list_elem_of_In.
  + unfold on_failed, catch_block. destruct (JS.throws _).
    * split; [|exact Ho2]. by rewrite shape_setTimeout, shape_addTerminalLine.
    * cbn [after]. split; [|exact Ho2].
      by rewrite shape_set_stage_badge, shape_set_status_label,
        shape_addTerminalLine.
  + split; [|exact Ho2]. by rewrite shape_setTimeout.
Qed.

Lemma pollStatus_keeps_shape_witness :
  steps (pollStatus (Demo.ok200 "completed" "quality") Demo.page)
    !! "site-header"
  = steps Demo.page !! "site-header".
Proof.
  apply (proj2 (proj1 (pollStatus_keeps_shape
                         (Demo.ok200 "completed" "quality") Demo.page
                         eq_refl))).
  vm_compute. intuition discriminate.
Defined.

End Shape.

(** ** A whole polling session *)

Section Sessions.

Import Process.

Lemma get_none (data : JS.value) (k k' : string) :
  JS.get data k = None -> JS.get data k' = None.
Proof. by destruct data. Qed.

Lemma lastStep_pollStatus (r : Net.result) (s : state) :
  lastStep (pollStatus r s) = lastStep s
  \/ exists v,
       polled_step r = Some v
       /\ lastStep (pollStatus r s) = v
       /\ JS.strict_eq v (JS.Str "queued") = false.
Proof.
  unfold polled_step. destruct r as [m | code [m | data]]; try (by left).
  - unfold pollStatus, try_block.
    destruct (Net.ok code); [|destruct (Z.eqb code 404)]; by left.
  - destruct (Net.ok code) eqn:Hok.
    + destruct (JS.get data "current_step") as [v|] eqn:Hv.
      * rewrite (pollStatus_lastStep code data v s Hok Hv).
        destruct (render_throws data s); [by left|].
        destruct (JS.strict_eq v (lastStep s)); [by left|].
        destruct (JS.strict_eq v (JS.Str "queued")) eqn:E; [by left|].
        right. by exists v.
      * left. unfold pollStatus, try_block, on_data.
        by rewrite Hok, (get_none _ _ "status" Hv).
    + left. unfold pollStatus, try_block. rewrite Hok.
      destruct (Z.eqb code 404); reflexivity.
Qed.

Lemma lastStep_fire (protocol jobId : string) (r : Net.result) (s : state) :
  lastStep s <> JS.Str "queued" ->
  lastStep (fst (fire protocol jobId r s)) <> JS.Str "queued".
Proof.
  intros Hs. unfold fire.
  destruct (timers s) as [|[d [|]] rest]; cbn [fst]; try exact Hs.
  destruct (lastStep_pollStatus r (set_timers rest s))
    as [-> | (v & _ & -> & E)]; [exact Hs|].
  intros Hq. rewrite Hq in E. discriminate E.
Qed.

(** X5.  The step remembered between polls is never the sentinel: if
    [lastStep] is not [queued] when the page starts polling (it starts as
    the empty string), it is not [queued] after any number of polls,
    whatever the server answers. *)
Theorem lastStep_never_queued (protocol jobId : string)
    (answers : list Net.result) (s : state) :
  lastStep s <> JS.Str "queued" ->
  lastStep (fst (run protocol jobId answers s)) <> JS.Str "queued".
Proof.
  revert s. induction answers as [|r more IH]; intros s Hs; [exact Hs|].
  cbn [run].
  pose proof (lastStep_fire protocol jobId r s Hs) as H1.
  destruct (fire protocol jobId r s) as [s1 urls1].
  specialize (IH s1 H1).
  destruct (run protocol jobId more s1) as [s2 urls2]. exact IH.
Qed.

Lemma lastStep_never_queued_witness :
  lastStep
    (fst (run "http:" "job-42"
            [Demo.ok200 "queued" "queued"; Demo.ok200 "running" "extraction";
             Demo.ok200 "running" "queued"]
            (setTimeout PollStatus 1000 Demo.page)))
  <> JS.Str "queued".
Proof.
  apply lastStep_never_queued. discriminate.
Defined.

Lemma convertible_conversion (r : Net.result) (s : state) :
  Session.convertible r = true -> conversion_fails r s = false.
Proof.
  destruct r as [m | code [m | data]]; try reflexivity.
  apply plain_conversion.
Qed.

Lemma poll_timers_cases (r : Net.result) (s : state) :
  conversion_fails r s = false ->
  (terminal_status r = false /\ exists d, poll_timers r s = [(d, PollStatus)])
  \/ (terminal_status r = true
      /\ (poll_timers r s = []
          \/ exists d, poll_timers r s = [(d, GotoOutput)])).
Proof.
  intros Hcf.
  unfold terminal_status, reported_status, poll_timers. rewrite Hcf.
  destruct r as [m | code [m | data]]; try (left; split; [done | by eexists]).
  destruct (Net.ok code); [|left; split; [done | by eexists]].
  destruct (JS.get data "status") as [st|];
    [|left; split; [done | by eexists]].
  destruct (JS.strict_eq st (JS.Str "completed")).
  - right. split; [done|]. right. by eexists.
  - destruct (JS.strict_eq st (JS.Str "failed")).
    + right. split; [done|]. by left.
    + left. split; [done | by eexists].
Qed.

Lemma run_idle (protocol jobId : string) (answers : list Net.result)
    (s : state) :
  timers s = [] -> run protocol jobId answers s = (s, []).
Proof.
  intros Ht. induction answers as [|r more IH]; [done|].
  cbn [run]. unfold fire. rewrite Ht, IH. reflexivity.
Qed.

Lemma run_leaving (protocol jobId : string) (answers : list Net.result)
    (s : state) (d : Z) :
  timers s = [(d, GotoOutput)] ->
  snd (run protocol jobId answers s) = []
  /\ (timers (fst (run protocol jobId answers s)) = [(d, GotoOutput)]
      \/ timers (fst (run protocol jobId answers s)) = []).
Proof.
  intros Ht. destruct answers as [|r more]; [by split; [|left]|].
  cbn [run]. unfold fire. rewrite Ht.
  rewrite run_idle by reflexivity. split; [done | by right].
Qed.

Lemma run_polling (protocol jobId : string) (answers : list Net.result) :
  Forall (fun r => Session.convertible r = true) answers ->
  forall (s : state) (d : Z),
    timers s = [(d, PollStatus)] ->
    snd (run protocol jobId answers s)
    = replicate (Session.polls_made answers) (status_url protocol jobId)
    /\ length (timers (fst (run protocol jobId answers s))) <= 1
    /\ (Exists (fun r => terminal_status r = true) answers ->
        Forall (fun t => is_poll t = false)
               (timers (fst (run protocol jobId answers s)))).
Proof.
  induction answers as [|r more IH]; intros Hconv s d Ht.
  - cbn. rewrite Ht. split; [done|]. split; [done|].
    intros H. by apply Exists_nil in H.
  - apply Forall_cons in Hconv as [Hr Hconv]. specialize (IH Hconv).
    cbn [run Session.polls_made]. unfold fire. rewrite Ht.
    set (s0 := set_timers [] s).
    set (s1 := pollStatus r s0).
    assert (Ht1 : timers s1 = poll_timers r s0).
    { unfold s1. by rewrite pollStatus_timers. }
    destruct (poll_timers_cases r s0 (convertible_conversion r s0 Hr))
      as [[Hnt [d' Hp]] | [Hterm Hp]].
    + rewrite Hp in Ht1. destruct (IH s1 d' Ht1) as (Hu & Hl & Hf).
      destruct (run protocol jobId more s1) as [s2 urls2].
      cbn [fst snd] in *. rewrite Hnt, Hu. split; [done|]. split; [done|].
      intros Hex. apply Exists_cons in Hex as [Hex | Hex]; [congruence|].
      by apply Hf.
    + rewrite Hterm. destruct Hp as [Hp | [d' Hp]]; rewrite Hp in Ht1.
      * rewrite (run_idle _ _ _ _ Ht1). cbn [fst snd].
        rewrite Ht1. split; [done|]. split; [cbn; lia|]. by intros _.
      * destruct (run_leaving protocol jobId more s1 d' Ht1) as (Hu & Hf).
        destruct (run protocol jobId more s1) as [s2 urls2].
        cbn [fst snd] in *. rewrite Hu. split; [done|].
        destruct Hf as [-> | ->]; (split; [cbn; lia|]); intros _;
          repeat constructor.
Qed.

(** X6.  A freshly loaded process page with a stored job id, served
    answers whose fields can all be converted to strings, requests
    [/api/status/] followed by that id once per timer, up to and including
    the first answer with a terminal status, and never after it; it never
    has more than one timer pending; and once a terminal status was
    answered no poll is pending any more. *)
Theorem polling_stops_at_terminal (protocol jobId : string)
    (el : option string) (answers : list Net.result) (s : state) :
  Output.stored (storage s) "graniteJobId" = Some jobId ->
  timers s = [] ->
  Forall (fun r => Session.convertible r = true) answers ->
  snd (session protocol el answers s)
  = replicate (Session.polls_made answers)
      ((if String.eqb protocol "file:" then "http://localhost:8000" else "")
       +:+ "/api/status/" +:+ jobId)
  /\ length (timers (fst (session protocol el answers s))) <= 1
  /\ (Exists (fun r => terminal_status r = true) answers ->
      Forall (fun t => is_poll t = false)
             (timers (fst (session protocol el answers s)))).
Proof.
  intros Hid Ht Hconv. unfold session, start. unfold Output.stored in Hid.
  destruct (storage s !! "graniteJobId") as [j|]; [|discriminate].
  destruct (String.eqb j ""); [discriminate|]. injection Hid as ->.
  apply (run_polling protocol jobId answers Hconv _ 1000%Z).
  cbn [timers setTimeout addTerminalLine set_terminal]. by rewrite Ht.
Qed.

Lemma polling_stops_at_terminal_witness :
  snd (session "http:" None
         [Demo.ok200 "running" "extraction"; Demo.ok200 "failed" "planning";
          Demo.ok200 "running" "animation"]
         Demo.page)
  = ["/api/status/job-42"; "/api/status/job-42"].
Proof.
  refine (proj1 (polling_stops_at_terminal "http:" "job-42" None
                   [Demo.ok200 "running" "extraction";
                    Demo.ok200 "failed" "planning";
                    Demo.ok200 "running" "animation"]
                   Demo.page eq_refl eq_refl _)).
  repeat constructor.
Defined.

(** X7.  Without a stored job id (the key is missing, or holds the empty
    string) the process page only goes back to the create page: it writes
    no line, arms no timer, leaves the file-name element alone and sends no
    status request, whatever answers the server would give. *)
Theorem process_page_needs_job (protocol : string) (el : option string)
    (answers : list Net.result) (s : state) :
  Output.stored (storage s) "graniteJobId" = None ->
  start el s = (set_href "create.html" s, el, None)
  /\ session protocol el answers s = (set_href "create.html" s, []).
Proof.
  intros Hid. unfold session, start. unfold Output.stored in Hid.
  destruct (storage s !! "graniteJobId") as [j|]; [|done].
  destruct (String.eqb j ""); [done | discriminate].
Qed.

Lemma process_page_needs_job_witness :
  session "http:" (Some "") [Demo.ok200 "running" "extraction"]
    {| top_bar := None; frame_bar := None; progress_label := None;
       stage_badge := None; status_label := None; terminal := Some [];
       steps := ∅; lastStep := JS.Str ""; pollCount := 0; console := [];
       timers := []; storage := {[ "graniteJobId" := "" ]};
       href := "process.html" |}
  = (set_href "create.html"
       {| top_bar := None; frame_bar := None; progress_label := None;
          stage_badge := None; status_label := None; terminal := Some [];
          steps := ∅; lastStep := JS.Str ""; pollCount := 0; console := [];
          timers := []; storage := {[ "graniteJobId" := "" ]};
          href := "process.html" |}, []).
Proof.
  apply process_page_needs_job. reflexivity.
Defined.

(** X8.  The terminal log is append-only: a poll keeps every line that is
    there, in order, and appends at most three (the line of the new stage,
    the completion line of the stage before, and the line of a terminal
    status). *)
Theorem log_is_append_only (r : Net.result) (s : state) (l : list line) :
  terminal s = Some l ->
  exists new,
    terminal (pollStatus r s) = Some (l ++ new) /\ length new <= 3.
Proof.
  intros Hl. exists (poll_lines r s). split.
  - by rewrite pollStatus_terminal, Hl.
  - unfold poll_lines.
    destruct r as [m | code [m | data]]; [cbn; lia | |].
    + destruct (Net.ok code); [|destruct (Z.eqb code 404)]; cbn; lia.
    + destruct (Net.ok code); [|destruct (Z.eqb code 404); cbn; lia].
      destruct (JS.get data "status") as [st|]; [|cbn; lia].
      destruct (render_throws data s); [cbn; lia|].
      rewrite length_app.
      assert (length (transition_lines (prop data "current_step") (lastStep s))
              <= 2).
      { unfold transition_lines.
        destruct (negb _ && negb _); [|cbn; lia].
        rewrite length_app.
        destruct (JS.indexOf stepNames (prop data "current_step"));
          destruct (JS.truthy (lastStep s) && negb _);
          try destruct (JS.indexOf stepNames (lastStep s)); cbn; lia. }
      destruct (JS.strict_eq st (JS.Str "completed"));
        [|destruct (JS.strict_eq st (JS.Str "failed"));
          [destruct (JS.throws _)|]]; cbn [length]; lia.
Qed.

Lemma log_is_append_only_witness :
  exists new,
    terminal (pollStatus (Demo.ok200 "completed" "quality") Demo.page)
    = Some ([] ++ new) /\ length new <= 3.
Proof.
  apply (log_is_append_only (Demo.ok200 "completed" "quality") Demo.page []).
  reflexivity.
Defined.

End Sessions.

(** ** What a submission leaves behind *)

Section Stored.

Import Create.

Lemma length_append (a b : string) :
  String.length (a +:+ b) = String.length a + String.length b.
Proof. induction a as [|c a IH]; [done|]. cbn. by rewrite <- IH. Qed.

Lemma list_of_append (a b : string) :
  list_ascii_of_string (a +:+ b)
  = (list_ascii_of_string a ++ list_ascii_of_string b)%list.
Proof. induction a as [|c a IH]; [done|]. cbn. by rewrite <- IH. Qed.

Lemma string_of_app (a b : list ascii) :
  string_of_list_ascii (a ++ b)
  = string_of_list_ascii a +:+ string_of_list_ascii b.
Proof.
  induction a as [|c a IH]; [done|]. cbn [app string_of_list_ascii].
  by rewrite IH.
Qed.

Lemma string_rev_involutive (s : string) :
  JS.string_rev (JS.string_rev s) = s.
Proof.
  unfold JS.string_rev.
  by rewrite list_ascii_of_string_of_list_ascii, rev_involutive,
    string_of_list_ascii_of_string.
Qed.

Lemma string_rev_append (a b : string) :
  JS.string_rev (a +:+ b) = JS.string_rev b +:+ JS.string_rev a.
Proof.
  unfold JS.string_rev. by rewrite list_of_append, rev_app_distr, string_of_app.
Qed.

Lemma length_string_rev (s : string) :
  String.length (JS.string_rev s) = String.length s.
Proof.
  induction s as [|c s IH]; [done|].
  change (String c s) with (String c EmptyString +:+ s).
  rewrite string_rev_append, !length_append, IH. cbn. lia.
Qed.

Lemma drop_prefix_Some (w s r : string) :
  JS.drop_prefix w s = Some r -> s = w +:+ r.
Proof.
  revert s. induction w as [|a w IH]; intros s; cbn [JS.drop_prefix].
  - intros H. by injection H as ->.
  - destruct s as [|b s]; [discriminate|].
    destruct (Ascii.eqb_spec a b) as [-> | _]; [|discriminate].
    intros H. apply IH in H. by subst.
Qed.

Lemma drop_prefix_append (w s r x : string) :
  JS.drop_prefix w s = Some r -> JS.drop_prefix w (s +:+ x) = Some (r +:+ x).
Proof.
  revert s. induction w as [|a w IH]; intros s; cbn [JS.drop_prefix].
  - intros H. by injection H as ->.
  - destruct s as [|b s]; [discriminate|].
    change (String b s +:+ x) with (String b (s +:+ x)).
    cbn [JS.drop_prefix].
    destruct (Ascii.eqb a b); [apply IH | discriminate].
Qed.

Lemma drop_any_None (ws : list string) (s : string) :
  JS.drop_any ws s = None <-> forall w, In w ws -> JS.drop_prefix w s = None.
Proof.
  induction ws as [|w ws IH]; cbn [JS.drop_any In]; [by split|].
  destruct (JS.drop_prefix w s) eqn:E.
  - split; [discriminate|]. intros H. rewrite <- E. apply H. by left.
  - rewrite IH. split.
    + intros H w' [<- | Hin]; [exact E | by apply H].
    + intros H w' Hin. apply H. by right.
Qed.

Lemma drop_any_Some (ws : list string) (s r : string) :
  JS.drop_any ws s = Some r ->
  exists w, In w ws /\ JS.drop_prefix w s = Some r.
Proof.
  induction ws as [|w ws IH]; cbn [JS.drop_any]; [discriminate|].
  destruct (JS.drop_prefix w s) eqn:E.
  - intros H. injection H as <-. exists w. split; [by left | exact E].
  - intros H. destruct (IH H) as (w' & Hin & Hw'). exists w'.
    split; [by right | exact Hw'].
Qed.

(** The result of [strip] starts with none of the words, given fuel for
    the whole string. *)
Lemma strip_no_prefix (ws : list string) :
  (forall w, In w ws -> w <> "") ->
  forall fuel s,
    String.length s <= fuel -> JS.drop_any ws (JS.strip ws fuel s) = None.
Proof.
  intros Hne. induction fuel as [|n IH]; intros s Hl; cbn [JS.strip].
  - destruct s; [|cbn in Hl; lia]. apply drop_any_None. intros w Hin.
    specialize (Hne w Hin). by destruct w.
  - destruct (JS.drop_any ws s) as [r|] eqn:E; [|exact E].
    apply IH. destruct (drop_any_Some _ _ _ E) as (w & Hin & Hw).
    apply drop_prefix_Some in Hw. subst s. rewrite length_append in Hl.
    specialize (Hne w Hin). destruct w; [done|]. cbn in Hl. lia.
Qed.

Lemma strip_fixed (ws : list string) (fuel : nat) (s : string) :
  JS.drop_any ws s = None -> JS.strip ws fuel s = s.
Proof. intros H. destruct fuel; cbn [JS.strip]; [done|]. by rewrite H. Qed.

(** [strip] only removes a prefix. *)
Lemma strip_suffix (ws : list string) (fuel : nat) (s : string) :
  exists w, s = w +:+ JS.strip ws fuel s.
Proof.
  revert s. induction fuel as [|n IH]; intros s; cbn [JS.strip];
    [by exists ""|].
  destruct (JS.drop_any ws s) as [r|] eqn:E; [|by exists ""].
  destruct (drop_any_Some _ _ _ E) as (w & _ & Hw).
  apply drop_prefix_Some in Hw. destruct (IH r) as [w' Hw'].
  exists (w +:+ w'). set (y := JS.strip ws n r) in *.
  rewrite Hw, Hw'.
  clear. induction w as [|c w IHw]; [done|].
  change (String c (w +:+ (w' +:+ y)) = String c ((w +:+ w') +:+ y)).
  by rewrite IHw.
Qed.

Lemma leading_nonempty (w : string) :
  In w (JS.utf8 <$> JS.white_space) -> w <> "".
Proof.
  intros Hin Hw. subst w. revert Hin.
  vm_compute. intuition discriminate.
Qed.

Lemma trailing_nonempty (w : string) :
  In w ((fun cp => JS.string_rev (JS.utf8 cp)) <$> JS.white_space) -> w <> "".
Proof.
  intros Hin Hw. subst w. revert Hin.
  vm_compute. intuition discriminate.
Qed.

Lemma trim_start_clean (s : string) :
  JS.drop_any (JS.utf8 <$> JS.white_space) (JS.trim_start s) = None.
Proof.
  unfold JS.trim_start. apply strip_no_prefix; [apply leading_nonempty | lia].
Qed.

(** A trimmed string neither starts nor ends with white space. *)
Lemma trim_clean (s : string) :
  JS.drop_any (JS.utf8 <$> JS.white_space) (JS.trim s) = None
  /\ JS.drop_any ((fun cp => JS.string_rev (JS.utf8 cp)) <$> JS.white_space)
       (JS.string_rev (JS.trim s)) = None.
Proof.
  unfold JS.trim, JS.trim_end. set (t := JS.trim_start s).
  set (wsr := (fun cp => JS.string_rev (JS.utf8 cp)) <$> JS.white_space).
  split.
  - destruct (strip_suffix wsr (String.length t) (JS.string_rev t))
      as [w Hw].
    set (y := JS.strip wsr (String.length t) (JS.string_rev t)) in *.
    assert (Ht : t = JS.string_rev y +:+ JS.string_rev w).
    { by rewrite <- string_rev_append, <- Hw, string_rev_involutive. }
    apply drop_any_None. intros w0 Hin.
    destruct (JS.drop_prefix w0 (JS.string_rev y)) as [r|] eqn:E; [|done].
    apply (drop_prefix_append _ _ _ (JS.string_rev w)) in E.
    rewrite <- Ht in E.
    pose proof (proj1 (drop_any_None _ _) (trim_start_clean s) w0 Hin) as Hn.
    fold t in Hn. congruence.
  - rewrite string_rev_involutive.
    apply strip_no_prefix; [apply trailing_nonempty|].
    by rewrite length_string_rev.
Qed.

Lemma trim_fixed (d : string) :
  JS.drop_any (JS.utf8 <$> JS.white_space) d = None ->
  JS.drop_any ((fun cp => JS.string_rev (JS.utf8 cp)) <$> JS.white_space)
    (JS.string_rev d) = None ->
  JS.trim d = d.
Proof.
  intros H1 H2. unfold JS.trim, JS.trim_end, JS.trim_start.
  rewrite (strip_fixed _ _ d H1), (strip_fixed _ _ _ H2).
  apply string_rev_involutive.
Qed.

Lemma trim_idem (s : string) : JS.trim (JS.trim s) = JS.trim s.
Proof. destruct (trim_clean s). by apply trim_fixed. Qed.

Lemma fetch_of_click (protocol : string) (i : inputs)
    (respond : request -> Net.result) (req : request) :
  In (Fetch req) (click protocol i respond) ->
  req = generate_request protocol (chosen_file i) (description i).
Proof.
  unfold click, click_start.
  assert (Hfin : forall p r, ~ In (Fetch req) (click_finish p r)).
  { intros p r Hin.
    assert (H : In (Fetch req) (List.filter is_fetch (click_finish p r)))
      by (by apply List.filter_In).
    by rewrite finish_no_fetch in H. }
  destruct (chosen_file i) as [f|]; [|destruct (String.eqb (description i) "")];
    cbn [app In p_file p_description];
    intros H; repeat (destruct H as [H | H]; try discriminate H);
    try (by injection H as <-); try (by apply Hfin in H); try done.
Qed.

(** X9.  A description that goes out with a request is never empty and
    carries no white space at either end: [trim] leaves it as it is, and it
    neither starts nor ends with the encoding of one of the white-space
    characters [trim] removes, U+00A0 and U+3000 among them.  A letter
    whose encoding ends with the byte 160 stays whole: around [déjà], the
    bytes of U+FEFF, U+3000 and a space in front and those of U+00A0 and a
    line feed behind are removed, and nothing else. *)
Theorem description_is_trimmed (protocol : string) (i : inputs)
    (respond : request -> Net.result) (req : request) (d : string) :
  In (Fetch req) (click protocol i respond) ->
  In ("description", FormText d) (form req) ->
  d <> ""
  /\ JS.trim d = d
  /\ (forall cp,
        In cp [9; 10; 11; 12; 13; 32; 160; 5760; 8192; 8193; 8194; 8195;
               8196; 8197; 8198; 8199; 8200; 8201; 8202; 8232; 8233; 8239;
               8287; 12288; 65279]%N ->
        JS.drop_prefix (JS.utf8 cp) d = None
        /\ JS.drop_prefix (JS.string_rev (JS.utf8 cp)) (JS.string_rev d)
           = None)
  /\ JS.trim
       (String "239" (String "187" (String "191" ""))
        +:+ String "227" (String "128" (String "128" ""))
        +:+ " déjà"
        +:+ String "194" (String "160" "") +:+ String "010" "")
     = "déjà".
Proof.
  intros Hreq Hd. rewrite (fetch_of_click _ _ _ _ Hreq) in Hd.
  unfold generate_request, formData in Hd. cbn [form] in Hd.
  apply in_app_or in Hd as [Hd | Hd].
  { destruct (chosen_file i); [|destruct Hd].
    destruct Hd as [Hd | []]. discriminate Hd. }
  destruct (String.eqb_spec (description i) "") as [|Hne]; [destruct Hd|].
  destruct Hd as [Hd | []]. injection Hd as <-.
  split; [exact Hne|]. unfold description in *.
  destruct (topic_value i) as [v|]; [|done].
  split; [apply trim_idem|]. split; [|by vm_compute].
  intros cp Hcp. change (In cp JS.white_space) in Hcp.
  destruct (trim_clean v) as [H1 H2]. split.
  - apply (proj1 (drop_any_None _ _) H1). by apply in_map.
  - apply (proj1 (drop_any_None _ _) H2).
    by apply (in_map (fun cp => JS.string_rev (JS.utf8 cp))).
Qed.

Lemma description_is_trimmed_witness :
  "photosynthesis" <> ""
  /\ JS.trim "photosynthesis" = "photosynthesis"
  /\ (forall cp,
        In cp [9; 10; 11; 12; 13; 32; 160; 5760; 8192; 8193; 8194; 8195;
               8196; 8197; 8198; 8199; 8200; 8201; 8202; 8232; 8233; 8239;
               8287; 12288; 65279]%N ->
        JS.drop_prefix (JS.utf8 cp) "photosynthesis" = None
        /\ JS.drop_prefix (JS.string_rev (JS.utf8 cp))
             (JS.string_rev "photosynthesis") = None).
Proof.
  refine ((fun H => conj (proj1 H)
                      (conj (proj1 (proj2 H)) (proj1 (proj2 (proj2 H))))) _).
  apply (description_is_trimmed "http:"
           {| topic_value :=
                Some (JS.utf8 12288 +:+ " photosynthesis" +:+ JS.utf8 160
                      +:+ JS.utf8 10);
              files := None |}
           (fun _ => Net.NetworkError "")
           (generate_request "http:" None "photosynthesis")).
  - vm_compute. auto.
  - vm_compute. auto.
Defined.

Lemma project_topic_nonempty (p : pending) : project_topic p <> "".
Proof.
  unfold project_topic.
  destruct (String.eqb_spec (p_description p) ""); [|done].
  destruct (p_file p) as [f|]; [|done].
  by destruct (String.eqb_spec (name f) "").
Qed.

Lemma storage_after_success (protocol : string) (i : inputs)
    (respond : request -> Net.result) (s0 : state)
    (code : Z) (data j : JS.value) :
  chosen_file i <> None \/ description i <> "" ->
  respond (generate_request protocol (chosen_file i) (description i))
  = Net.Response code (Net.Json data) ->
  Net.ok code = true ->
  JS.get data "job_id" = Some j ->
  JS.throws j = false ->
  storage (run (click protocol i respond) s0)
  = match chosen_file i with
    | Some f => <["graniteFileName" := name f]>
    | None => fun m => m
    end
      (<["currentProjectTopic" :=
           project_topic {| p_description := description i;
                            p_file := chosen_file i |}]>
         (<["graniteJobId" := JS.to_string j]> (storage s0))).
Proof.
  intros Hvalid Hresp Hok Hj Hth.
  rewrite (click_valid protocol i respond Hvalid), run_app, Hresp.
  unfold click_finish. rewrite Hok, Hj, Hth. cbn [p_file].
  by destruct (chosen_file i).
Qed.

(** X10.  A successful submission writes the storage and nothing else of
    it: the job id as text (the text [undefined] when the body has no
    [job_id]), a project topic that is never empty, and the file name only
    when a file was chosen; without a file the file name of an earlier
    submission stays where it was, and every other key keeps its value.
    When the job id cannot be converted to text, nothing at all is stored:
    the page stays where it is and the button is enabled again. *)
Theorem success_writes_storage (protocol : string) (i : inputs)
    (respond : request -> Net.result) (s0 : state)
    (code : Z) (data j : JS.value) :
  chosen_file i <> None \/ description i <> "" ->
  respond (generate_request protocol (chosen_file i) (description i))
  = Net.Response code (Net.Json data) ->
  Net.ok code = true ->
  JS.get data "job_id" = Some j ->
  let s1 := run (click protocol i respond) s0 in
  (JS.throws j = false ->
   storage s1 !! "graniteJobId" = Some (JS.to_string j)
   /\ (j = JS.Undefined -> storage s1 !! "graniteJobId" = Some "undefined")
   /\ (exists t, storage s1 !! "currentProjectTopic" = Some t /\ t <> "")
   /\ storage s1 !! "graniteFileName"
      = match chosen_file i with
        | Some f => Some (name f)
        | None => storage s0 !! "graniteFileName"
        end
   /\ (forall k,
         k <> "graniteJobId" -> k <> "currentProjectTopic" ->
         k <> "graniteFileName" ->
         storage s1 !! k = storage s0 !! k))
  /\ (JS.throws j = true ->
      storage s1 = storage s0 /\ href s1 = href s0
      /\ btn_disabled s1 = false
      /\ last (alerts s1)
         = Some "Error: Cannot convert object to primitive value").
Proof.
  intros Hvalid Hresp Hok Hj s1. split; intros Hth.
  2:{ unfold s1.
      rewrite (click_valid protocol i respond Hvalid), run_app, Hresp.
      unfold click_finish. rewrite Hok, Hj, Hth. unfold on_error.
      cbn. repeat split. by rewrite last_snoc. }
  unfold s1.
  rewrite (storage_after_success protocol i respond s0 code data j
             Hvalid Hresp Hok Hj Hth).
  assert (Hid : forall m : gmap string string,
             match chosen_file i with
             | Some f => <["graniteFileName" := name f]>
             | None => fun m => m
             end m !! "graniteJobId" = m !! "graniteJobId").
  { intros m. destruct (chosen_file i); [by rewrite lookup_insert_ne|done]. }
  split; [|split; [|split; [|split]]].
  - rewrite Hid, lookup_insert_ne by done. apply lookup_insert_eq.
  - intros ->. rewrite Hid, lookup_insert_ne by done. apply lookup_insert_eq.
  - exists (project_topic {| p_description := description i;
                              p_file := chosen_file i |}).
    split; [|apply project_topic_nonempty].
    destruct (chosen_file i); rewrite ?lookup_insert_ne by done;
      apply lookup_insert_eq.
  - destruct (chosen_file i); [apply lookup_insert_eq|].
    by rewrite !lookup_insert_ne.
  - intros k H1 H2 H3.
    destruct (chosen_file i); by rewrite !lookup_insert_ne.
Qed.

Lemma success_writes_storage_witness :
  storage
    (run (click "http:" {| topic_value := Some "tides"; files := None |}
            (fun _ => Net.Response 200 (Net.Json (JS.Obj []))))
         {| btn_disabled := false; btn_html := "";
            storage := {[ "graniteFileName" := "old.pdf" ]}; href := "";
            alerts := []; sent := [] |})
  !! "graniteFileName" = Some "old.pdf".
Proof.
  refine (proj1 (proj2 (proj2 (proj2
    (proj1 (success_writes_storage "http:"
       {| topic_value := Some "tides"; files := None |}
       (fun _ => Net.Response 200 (Net.Json (JS.Obj [])))
       {| btn_disabled := false; btn_html := "";
          storage := {[ "graniteFileName" := "old.pdf" ]}; href := "";
          alerts := []; sent := [] |}
       200%Z (JS.Obj []) JS.Undefined _ eq_refl eq_refl eq_refl)
       eq_refl))))).
  right. vm_compute. discriminate.
Defined.

Lemma lookups_after_success (protocol : string) (i : inputs)
    (respond : request -> Net.result) (s0 : state)
    (code : Z) (data j : JS.value) :
  chosen_file i <> None \/ description i <> "" ->
  respond (generate_request protocol (chosen_file i) (description i))
  = Net.Response code (Net.Json data) ->
  Net.ok code = true ->
  JS.get data "job_id" = Some j ->
  JS.throws j = false ->
  storage (run (click protocol i respond) s0) !! "graniteJobId"
  = Some (JS.to_string j)
  /\ storage (run (click protocol i respond) s0) !! "graniteFileName"
     = match chosen_file i with
       | Some f => Some (name f)
       | None => storage s0 !! "graniteFileName"
       end.
Proof.
  intros Hvalid Hresp Hok Hj Hth.
  rewrite (storage_after_success protocol i respond s0 code data j
             Hvalid Hresp Hok Hj Hth).
  destruct (chosen_file i); split;
    rewrite ?lookup_insert_eq, ?lookup_insert_ne by done; try done;
    apply lookup_insert_eq.
Qed.

(** X11.  What the process page shows as source is the name of the file of
    the submission that led to it, a dash when that name is empty; after a
    submission without a file it is whatever file name the storage still
    held, a dash when it held none. *)
Theorem source_name_round_trip (protocol : string) (i : inputs)
    (respond : request -> Net.result) (s0 : state)
    (code : Z) (data : JS.value) (jobId : string)
    (page : Process.state) (shown : string) :
  chosen_file i <> None \/ description i <> "" ->
  respond (generate_request protocol (chosen_file i) (description i))
  = Net.Response code (Net.Json data) ->
  Net.ok code = true ->
  JS.get data "job_id" = Some (JS.Str jobId) ->
  jobId <> "" ->
  Process.storage page = storage (run (click protocol i respond) s0) ->
  snd (fst (Process.start (Some shown) page))
  = Some (match chosen_file i with
          | Some f => if String.eqb (name f) "" then "—" else name f
          | None =>
              match storage s0 !! "graniteFileName" with
              | Some n => if String.eqb n "" then "—" else n
              | None => "—"
              end
          end)
  /\ snd (Process.start (Some shown) page) = Some jobId.
Proof.
  intros Hvalid Hresp Hok Hj Hne Hpage.
  destruct (lookups_after_success protocol i respond s0 code data
              (JS.Str jobId) Hvalid Hresp Hok Hj eq_refl) as (Hid & Hfile).
  rewrite <- Hpage in Hid, Hfile.
  unfold Process.start. rewrite Hid, Hfile. cbn [JS.to_string].
  destruct (String.eqb_spec jobId ""); [done|].
  cbn [fst snd fmap option_fmap option_map]. by destruct (chosen_file i).
Qed.

Lemma source_name_round_trip_witness :
  snd (fst (Process.start (Some "")
              (Samples.bare_page
                 (storage
                    (run (click "http:"
                            {| topic_value := None;
                               files := Some [{| name := "cells.pdf";
                                                 size := 2048 |}] |}
                            (Samples.accept "j1"))
                         (Samples.fresh ∅))))))
  = Some "cells.pdf".
Proof.
  refine (proj1
    (source_name_round_trip "http:"
       {| topic_value := None;
          files := Some [{| name := "cells.pdf"; size := 2048 |}] |}
       (Samples.accept "j1") (Samples.fresh ∅)
       200%Z (JS.Obj [("job_id", JS.Str "j1")]) "j1"
       (Samples.bare_page
          (storage
             (run (click "http:"
                     {| topic_value := None;
                        files := Some [{| name := "cells.pdf";
                                          size := 2048 |}] |}
                     (Samples.accept "j1"))
                  (Samples.fresh ∅))))
       ""
       _ eq_refl eq_refl eq_refl _ eq_refl)).
  - left. discriminate.
  - discriminate.
Defined.

(** X12.  The output page shows the topic of the submission that led to
    it, the answer to which carried a job id that could be stored: the
    trimmed description when there is one, else the name of the file, else
    the text [Generated Video]; the prompt shows the same text between
    double quotes. *)
Theorem topic_round_trip (protocol : string) (i : inputs)
    (respond : request -> Net.result) (s0 : state)
    (code : Z) (data j : JS.value) (d : Output.dom) :
  chosen_file i <> None \/ description i <> "" ->
  respond (generate_request protocol (chosen_file i) (description i))
  = Net.Response code (Net.Json data) ->
  Net.ok code = true ->
  JS.get data "job_id" = Some j ->
  JS.throws j = false ->
  let shown :=
    if String.eqb (description i) "" then
      match chosen_file i with
      | Some f => if String.eqb (name f) "" then "Generated Video" else name f
      | None => "Generated Video"
      end
    else description i in
  let d' := Output.load protocol (storage (run (click protocol i respond) s0))
              d in
  Output.project_title d' = (fun _ => shown) <$> Output.project_title d
  /\ Output.prompt_display d'
     = (fun _ => JS.dq +:+ shown +:+ JS.dq) <$> Output.prompt_display d.
Proof.
  intros Hvalid Hresp Hok Hj Hth shown d'.
  assert (Ht : Output.stored (storage (run (click protocol i respond) s0))
                 "currentProjectTopic" = Some shown).
  { rewrite (storage_after_success protocol i respond s0 code data j
               Hvalid Hresp Hok Hj Hth).
    unfold Output.stored.
    assert (Hl : forall m : gmap string string,
               match chosen_file i with
               | Some f => <["graniteFileName" := name f]>
               | None => fun m => m
               end m !! "currentProjectTopic" = m !! "currentProjectTopic").
    { intros m. destruct (chosen_file i); [by rewrite lookup_insert_ne|done]. }
    rewrite Hl, lookup_insert_eq.
    pose proof (project_topic_nonempty
                  {| p_description := description i;
                     p_file := chosen_file i |}) as Hne.
    destruct (String.eqb_spec
                (project_topic {| p_description := description i;
                                  p_file := chosen_file i |}) ""); [done|].
    reflexivity. }
  unfold d', Output.load.
  cbn [Output.project_title Output.prompt_display]. by rewrite Ht.
Qed.

Lemma topic_round_trip_witness :
  Output.project_title
    (Output.load "http:"
       (storage
          (run (click "http:"
                  {| topic_value := Some (JS.utf8 12288 +:+ "tides ");
                     files := None |}
                  (fun _ => Net.Response 200
                              (Net.Json (JS.Obj [("job_id", JS.Str "j1")]))))
               {| btn_disabled := false; btn_html := ""; storage := ∅;
                  href := ""; alerts := []; sent := [] |}))
       Demo.player)
  = Some "tides".
Proof.
  refine (proj1
    (topic_round_trip "http:"
       {| topic_value := Some (JS.utf8 12288 +:+ "tides "); files := None |}
       (fun _ => Net.Response 200
                   (Net.Json (JS.Obj [("job_id", JS.Str "j1")])))
       {| btn_disabled := false; btn_html := ""; storage := ∅; href := "";
          alerts := []; sent := [] |}
       200%Z (JS.Obj [("job_id", JS.Str "j1")]) (JS.Str "j1") Demo.player
       _ eq_refl eq_refl eq_refl eq_refl)).
  right. vm_compute. discriminate.
Defined.

End Stored.

(** ** Page detection and login *)

Section Routing.

Import Router.

Lemma split_nonempty (sep : ascii) (s : string) : split sep s <> [].
Proof.
  destruct s as [|c s]; cbn [split]; [done|].
  destruct (Ascii.eqb c sep); [done|]. by destruct (split sep s).
Qed.

Lemma last_cons {A : Type} (x : A) (l : list A) (d : A) :
  l <> [] -> List.last (x :: l) d = List.last l d.
Proof. by destruct l. Qed.

Lemma split_single (sep : ascii) (s w : string) :
  split sep s = [w] -> w = s.
Proof.
  revert w. induction s as [|c s IH]; intros w; cbn [split].
  - by intros [= <-].
  - destruct (Ascii.eqb c sep).
    + intros H. injection H as _ H. by apply split_nonempty in H.
    + destruct (split sep s) as [|w' ws] eqn:E;
        [by apply split_nonempty in E|].
      intros H. injection H as <- ->. by rewrite (IH w' eq_refl).
Qed.

Lemma endsWith_refl (s : string) : endsWith s s = true.
Proof. destruct s; cbn [endsWith]; by rewrite String.eqb_refl. Qed.

Lemma endsWith_last (sep : ascii) (s : string) :
  endsWith s (List.last (split sep s) EmptyString) = true.
Proof.
  induction s as [|c s IH]; [reflexivity|]. cbn [split endsWith].
  destruct (Ascii.eqb c sep).
  - rewrite last_cons by apply split_nonempty. rewrite IH.
    apply orb_true_r.
  - pose proof (split_nonempty sep s) as Hne.
    destruct (split sep s) as [|w ws] eqn:E; [done|].
    destruct ws as [|w2 ws].
    + rewrite (split_single sep s w E). cbn [List.last].
      by rewrite String.eqb_refl.
    + rewrite last_cons by done. rewrite <- (last_cons w (w2 :: ws)) by done.
      rewrite IH. apply orb_true_r.
Qed.

Lemma page_login (path : string) :
  page path = "login.html" -> endsWith path "login.html" = true.
Proof.
  unfold page. intros H.
  destruct (String.eqb (List.last (split "/" path) "") ""); [discriminate|].
  rewrite <- H. apply endsWith_last.
Qed.

(** X13.  A load runs at most one page block, and the login block (the
    one that arms the login form) runs only for a visitor who is not
    logged in: a logged-in visitor of the login page is always sent to the
    dashboard instead. *)
Theorem one_block_per_load (path : string) (session : gmap string string)
    (bs : list block) :
  DOMContentLoaded path session = Blocks bs ->
  length bs <= 1
  /\ (In LoginBlock bs -> isLoggedIn session = false).
Proof.
  unfold DOMContentLoaded.
  destruct (endsWith path "login.html" && isLoggedIn session) eqn:Hgate;
    [discriminate|].
  intros H. injection H as <-. split.
  - destruct (String.eqb_spec (page path) "login.html") as [-> | _];
      [cbn; lia|].
    destruct (String.eqb_spec (page path) "create.html") as [-> | _];
      [cbn; lia|].
    destruct (String.eqb_spec (page path) "process.html") as [-> | _];
      [cbn; lia|].
    destruct (String.eqb (page path) "output.html"); cbn; lia.
  - intros Hin.
    destruct (String.eqb_spec (page path) "login.html") as [Hp | _].
    + rewrite (page_login path Hp) in Hgate. exact Hgate.
    + cbn [app] in Hin.
      destruct (String.eqb (page path) "create.html");
        destruct (String.eqb (page path) "process.html");
        destruct (String.eqb (page path) "output.html"); cbn in Hin;
        repeat (destruct Hin as [Hin | Hin]; [discriminate Hin|]);
        destruct Hin.
Qed.

Lemma one_block_per_load_witness :
  length [LoginBlock] <= 1
  /\ (In LoginBlock [LoginBlock] -> isLoggedIn ∅ = false).
Proof.
  apply (one_block_per_load "/app/login.html" ∅ [LoginBlock]).
  reflexivity.
Defined.

(** X14.  The login form lets in exactly the pair [hola@gmail.com],
    [hola123].  After a successful submit every later load of a path
    ending in [login.html] leaves for the dashboard; a failed submit
    raises the alert, goes nowhere and leaves the session as it was. *)
Theorem login_round_trip (email password : string)
    (session : gmap string string) :
  (target (submit email password session) = Some "dashboard.html"
   <-> email = "hola@gmail.com" /\ password = "hola123")
  /\ (target (submit email password session) = Some "dashboard.html" ->
      forall path,
        endsWith path "login.html" = true ->
        DOMContentLoaded path (session_after (submit email password session))
        = Redirect "dashboard.html")
  /\ (target (submit email password session) <> Some "dashboard.html" ->
      session_after (submit email password session) = session
      /\ is_Some (alerted (submit email password session))
      /\ target (submit email password session) = None).
Proof.
  unfold submit.
  destruct (String.eqb_spec email "hola@gmail.com") as [-> | He];
    [destruct (String.eqb_spec password "hola123") as [-> | Hp]|];
    cbn [andb target session_after alerted].
  - split; [done|]. split; [|done]. intros _ path Hpath.
    unfold DOMContentLoaded, isLoggedIn.
    by rewrite Hpath, lookup_insert_eq.
  - split; [split; [done | by intros [_ ?]]|]. split; [done|].
    intros _. by repeat split.
  - split; [split; [done | by intros [? _]]|]. split; [done|].
    intros _. by repeat split.
Qed.

Lemma login_round_trip_witness :
  DOMContentLoaded "/login.html"
    (session_after (submit "hola@gmail.com" "hola123" ∅))
  = Redirect "dashboard.html".
Proof.
  apply (proj1 (proj2 (login_round_trip "hola@gmail.com" "hola123" ∅)));
    reflexivity.
Defined.

Lemma split_length_cons (sep c : ascii) (s : string) :
  Ascii.eqb c sep = false ->
  length (split sep (String c s)) = length (split sep s).
Proof.
  intros H. cbn [split]. rewrite H.
  pose proof (split_nonempty sep s). by destruct (split sep s).
Qed.

Lemma split_no_sep (sep : ascii) (s : string) :
  ~ In sep (list_ascii_of_string s) -> split sep s = [s].
Proof.
  induction s as [|c s IH]; [done|]. cbn [list_ascii_of_string split].
  intros Hn. destruct (Ascii.eqb_spec c sep) as [-> | _].
  - destruct Hn. by left.
  - rewrite IH; [done|]. intros H. apply Hn. by right.
Qed.

Lemma append_nil (s : string) : "" +:+ s = s.
Proof. reflexivity. Qed.

Lemma append_cons (c : ascii) (a s : string) :
  String c a +:+ s = String c (a +:+ s).
Proof. reflexivity. Qed.

Lemma last_split_app (sep : ascii) (a b : string) :
  List.last (split sep (a +:+ String sep b)) EmptyString
  = List.last (split sep b) EmptyString.
Proof.
  induction a as [|c a IH].
  - rewrite append_nil. cbn [split]. rewrite Ascii.eqb_refl.
    apply last_cons, split_nonempty.
  - rewrite append_cons. cbn [split]. destruct (Ascii.eqb c sep) eqn:E.
    + rewrite last_cons by apply split_nonempty. exact IH.
    + assert (Hlen : 2 <= length (split sep (a +:+ String sep b))).
      { clear IH. induction a as [|c' a IH'].
        - rewrite append_nil. cbn [split]. rewrite Ascii.eqb_refl.
          cbn [length].
          pose proof (split_nonempty sep b).
          destruct (split sep b); [done | cbn; lia].
        - rewrite append_cons. destruct (Ascii.eqb c' sep) eqn:E'.
          + cbn [split]. rewrite E'. cbn [length]. lia.
          + by rewrite split_length_cons. }
      destruct (split sep (a +:+ String sep b)) as [|w [|w2 ws]];
        [cbn in Hlen; lia | cbn in Hlen; lia |].
      rewrite last_cons by done. rewrite <- IH. symmetry. by apply last_cons.
Qed.

Lemma split_elem_no_sep (sep : ascii) (s w : string) :
  In w (split sep s) -> ~ In sep (list_ascii_of_string w).
Proof.
  revert w. induction s as [|c s IH]; intros w; cbn [split].
  - intros [<- | []]. by intros [].
  - destruct (Ascii.eqb_spec c sep) as [-> | Hne].
    + intros [<- | Hin]; [by intros [] | by apply IH].
    + pose proof (split_nonempty sep s) as Hnil.
      destruct (split sep s) as [|w' ws]; [done|].
      intros [<- | Hin].
      * cbn [list_ascii_of_string]. intros [H | H]; [done|].
        apply (IH w'); [by left | done].
      * apply IH. by right.
Qed.

(** X15.  The page name taken from a path is its last segment: for a path
    that ends in a slash followed by a non-empty name without slash it is
    that name; for a path that ends in a slash it is [index.html]; and it
    is never empty and never contains a slash. *)
Theorem page_is_last_segment (dir name : string) :
  (~ In "/"%char (list_ascii_of_string name) ->
   name <> "" ->
   page (dir +:+ String "/" name) = name)
  /\ page (dir +:+ "/") = "index.html"
  /\ (forall path,
        page path <> ""
        /\ ~ In "/"%char (list_ascii_of_string (page path))).
Proof.
  split; [|split].
  - intros Hn Hne. unfold page. rewrite last_split_app, split_no_sep by done.
    cbn [List.last]. by destruct (String.eqb_spec name "").
  - unfold page. by rewrite last_split_app.
  - intros path. unfold page.
    destruct (String.eqb_spec (List.last (split "/" path) "") "") as [|Hne].
    + split; [done|]. vm_compute. intuition discriminate.
    + split; [done|]. apply (split_elem_no_sep "/" path).
      pose proof (split_nonempty "/" path) as Hnil.
      destruct (exists_last Hnil) as (l & w & Hl). rewrite Hl.
      rewrite last_last. apply in_or_app. right. by left.
Qed.

Lemma page_is_last_segment_witness :
  page ("/granite/frontend" +:+ String "/" "process.html") = "process.html".
Proof.
  apply (proj1 (page_is_last_segment "/granite/frontend" "process.html")).
  - vm_compute. intuition discriminate.
  - discriminate.
Defined.

End Routing.

(** ** The file input and the output page *)

Section Display2.

Lemma tenths_bounds (size : N) :
  (2097152 * Upload.tenths size <= 20 * size + 1048576
   < 2097152 * (Upload.tenths size + 1))%N.
Proof.
  unfold Upload.tenths.
  assert (Hp : (2 ^ 21 <> 0)%N) by (vm_compute; discriminate).
  pose proof (N.div_mod (size * 20 + 2 ^ 20) (2 ^ 21) Hp) as Hd.
  pose proof (N.mod_lt (size * 20 + 2 ^ 20) (2 ^ 21) Hp) as Hm.
  revert Hd Hm.
  generalize ((size * 20 + 2 ^ 20) / 2 ^ 21)%N
             ((size * 20 + 2 ^ 20) mod 2 ^ 21)%N.
  change (2 ^ 21)%N with 2097152%N.
  change (2 ^ 20)%N with 1048576%N. intros q m Hd Hm. lia.
Qed.

(** X16.  Choosing files makes the drop zone show the name of the first
    one and, as its size, a number with one decimal followed by
    [ MB — Ready to upload]: the number is the size in units of 2^20 bytes
    rounded to the nearest tenth, halves upwards, so it is within half a
    tenth of the true value, and it reads 0.0 exactly for files of at most
    52428 bytes.  An empty choice leaves the drop zone as it is. *)
Theorem size_rounds_to_tenths (f : Create.file) (rest : list Create.file)
    (z : Upload.zone) :
  (exists q r : N,
      Upload.subtitle (Upload.change (f :: rest) z)
      = (fun _ =>
           (pretty q +:+ "." +:+ pretty r) +:+ " MB — Ready to upload")
          <$> Upload.subtitle z
      /\ (r < 10)%N
      /\ (2097152 * (10 * q + r) <= 20 * Create.size f + 1048576
          < 2097152 * (10 * q + r + 1))%N
      /\ (q = 0%N /\ r = 0%N <-> (Create.size f <= 52428)%N))
  /\ Upload.headline (Upload.change (f :: rest) z)
     = (fun _ => "📄 " +:+ Create.name f) <$> Upload.headline z
  /\ Upload.change [] z = z.
Proof.
  split; [|by split].
  exists (Upload.tenths (Create.size f) / 10)%N,
         (Upload.tenths (Create.size f) mod 10)%N.
  cbn [Upload.change Upload.subtitle]. unfold Upload.sizeMB.
  pose proof (tenths_bounds (Create.size f)) as Hb.
  pose proof (N.div_mod (Upload.tenths (Create.size f)) 10) as Hd.
  pose proof (N.mod_lt (Upload.tenths (Create.size f)) 10) as Hm.
  revert Hb Hd Hm.
  generalize (Upload.tenths (Create.size f) / 10)%N
             (Upload.tenths (Create.size f) mod 10)%N.
  intros q r Hb Hd Hm.
  assert (Ht : Upload.tenths (Create.size f) = (10 * q + r)%N)
    by (apply Hd; lia).
  assert (Hr : (r < 10)%N) by (apply Hm; lia).
  rewrite Ht in Hb. repeat split; lia.
Qed.


(** X17.  The prompt of the output page is always the topic between double
    quotes: the topic read from the storage is never empty, so the
    fallback text of the script is never shown; and the title is never
    empty either. *)
Theorem prompt_fallback_unreachable (protocol : string)
    (storage : gmap string string) (d : Output.dom) :
  Player.topic storage <> ""
  /\ Player.prompt_text (Player.topic storage) <> "No description provided"
  /\ Output.prompt_display (Output.load protocol storage d)
     = (fun _ => Player.prompt_text (Player.topic storage))
         <$> Output.prompt_display d
  /\ Output.project_title (Output.load protocol storage d)
     = (fun _ => Player.topic storage) <$> Output.project_title d.
Proof.
  assert (Hne : Player.topic storage <> "").
  { unfold Player.topic, Output.stored.
    destruct (storage !! "currentProjectTopic") as [v|]; [|done].
    by destruct (String.eqb_spec v ""). }
  split; [exact Hne|]. unfold Player.prompt_text.
  destruct (String.eqb_spec (Player.topic storage) ""); [done|].
  split; [discriminate|]. split; reflexivity.
Qed.

End Display2.

(** ** A poll that reports a stage *)

Section StagePoll.

Import Process.

Lemma steps_visualize (v : JS.value) (s : state) :
  steps (visualize v s)
  = if negb (JS.strict_eq v (lastStep s))
       && negb (JS.strict_eq v (JS.Str "queued"))
    then steps (updatePipelineStep v s) else steps s.
Proof.
  unfold visualize.
  destruct (negb (JS.strict_eq v (lastStep s))
            && negb (JS.strict_eq v (JS.Str "queued"))); [|done].
  destruct (JS.truthy (lastStep s)
            && negb (JS.strict_eq (lastStep s) (JS.Str "queued")));
    [destruct (JS.indexOf stepNames (lastStep s))|];
    destruct (JS.indexOf stepNames v); reflexivity.
Qed.

Lemma stepNames_not_queued (k : nat) (name : string) :
  stepNames !! k = Some name ->
  JS.strict_eq (JS.Str name) (JS.Str "queued") = false.
Proof.
  do 6 (destruct k as [|k]; [intros H; injection H as <-; reflexivity|]).
  discriminate.
Qed.

(** X18.  A poll that reports stage number [k] while the job is not
    completed, and whose three display fields can be written, redraws the
    rows only when the stage is new: if the stage differs from the one
    seen before, the rows before it get the completed display and its own
    row the active display, exactly as [updatePipelineStep] draws them on
    the page as it is at this poll; if it is the stage seen before, every
    row is left as it is.  Either way the stage is the one remembered
    afterwards.  When one of the three writes throws, neither the rows nor
    the remembered stage change. *)
Theorem stage_poll_redraws_once (s : state) (code : Z) (data st : JS.value)
    (k : nat) (name : string) :
  Net.ok code = true ->
  JS.get data "current_step" = Some (JS.Str name) ->
  stepNames !! k = Some name ->
  JS.get data "status" = Some st ->
  JS.strict_eq st (JS.Str "completed") = false ->
  let s' := pollStatus (Net.Response code (Net.Json data)) s in
  (render_throws data s = false ->
   lastStep s' = JS.Str name
   /\ (lastStep s = JS.Str name -> steps s' = steps s)
   /\ (lastStep s <> JS.Str name ->
       forall j id,
         stepIds !! j = Some id ->
         steps s' !! id = Session.row_display k j <$> steps s !! id))
  /\ (render_throws data s = true ->
      lastStep s' = lastStep s /\ steps s' = steps s).
Proof.
  intros Hok Hcur Hk Hst Hc s'.
  pose proof (pollStatus_json code data st s Hok Hst) as H.
  split; intros Hrt; rewrite Hrt in H; destruct H as (s1 & Hr & H).
  2:{ destruct (frame_after_render data _ s1 JS.conversion_message
                  (or_intror Hr)) as (_ & _ & Hl & _ & _ & Hs & _).
      unfold s'. rewrite H. unfold catch_block.
      cbn [steps lastStep setTimeout addTerminalLine set_terminal log_error].
      by rewrite Hl, Hs. }
  destruct (frame_after_render data _ s1 "" (or_introl Hr))
    as (_ & _ & Hl & _ & _ & Hs & _).
  change (lastStep (incr_pollCount s)) with (lastStep s) in Hl.
  change (steps (incr_pollCount s)) with (steps s) in Hs.
  assert (Hsteps : steps s'
                   = if negb (JS.strict_eq (JS.Str name) (lastStep s))
                     then steps (updatePipelineStep (JS.Str name) s)
                     else steps s).
  { unfold s'. rewrite H. cbv zeta. rewrite Hc, (prop_get _ _ _ Hcur).
    assert (Hv : steps (visualize (JS.Str name) s1)
                 = if negb (JS.strict_eq (JS.Str name) (lastStep s))
                   then steps (updatePipelineStep (JS.Str name) s)
                   else steps s).
    { rewrite steps_visualize, Hl.
      rewrite (stepNames_not_queued k name Hk), andb_true_r.
      destruct (negb _); [|exact Hs].
      unfold updatePipelineStep. destruct (JS.indexOf stepNames _); [|exact Hs].
      change (steps (set_steps ?m ?x)) with m. by rewrite Hs. }
    destruct (JS.strict_eq st (JS.Str "failed")); [|exact Hv].
    unfold on_failed, catch_block. by destruct (JS.throws _). }
  split; [|split].
  - unfold s'. rewrite (pollStatus_lastStep code data _ s Hok Hcur), Hrt.
    rewrite (stepNames_not_queued k name Hk), andb_true_r.
    cbn [negb andb].
    destruct (JS.strict_eq (JS.Str name) (lastStep s)) eqn:E; [|done].
    by apply strict_eq_str_l in E.
  - intros Hl'. rewrite Hsteps, Hl'. cbn [JS.strict_eq].
    by rewrite String.eqb_refl.
  - intros Hl' j id Hj. rewrite Hsteps.
    destruct (JS.strict_eq (JS.Str name) (lastStep s)) eqn:E.
    { by apply strict_eq_str_l in E. }
    cbn [negb]. rewrite (steps_updatePipelineStep s k name Hk).
    apply fold_update_in; [apply entries_NoDup | by apply entries_elem].
Qed.

Lemma stage_poll_redraws_once_witness :
  steps (pollStatus (Demo.ok200 "running" "animation") Demo.page)
    !! "step-planning"
  = Session.row_display 2 1 <$> steps Demo.page !! "step-planning".
Proof.
  refine (proj2 (proj2
    (proj1 (stage_poll_redraws_once Demo.page 200%Z
              (Demo.answer "running" "animation") (JS.Str "running") 2
              "animation" eq_refl eq_refl eq_refl eq_refl eq_refl)
       eq_refl)) _ 1 "step-planning" eq_refl).
  discriminate.
Defined.

End StagePoll.
